(** * Signup form (shared/ui/Authentication/Signup.tsx)

    A shallow embedding of the signup form's field validators, of its
    validity-change callback and of its submit handler, followed by the
    properties the form's specification states about them.

    Conventions.
    - A JavaScript string is the list of its UTF-16 code units ([jsstring]);
      [String.length] is the length of that list.
    - [new RegExp(p).test(s)] with a pattern of the form [^body$] and no
      flags holds iff the whole of [s] belongs to the language of [body];
      [body] is written as a [regex] term and decided by derivatives.
    - A React function component binds every state variable as a constant of
      the current render; a setter only schedules the value of the next
      render.  The handlers therefore read the render's snapshot and write
      to a pending state.
    - One submit attempt is followed from the click to its last statement,
      the awaited registration call included; no other event of the form
      is interleaved with it.  The telemetry sink, the dispatcher and the
      logger record what they are given and return. *)

From Stdlib Require Import Ascii String.
From Stdlib Require Import List NArith Bool Lia Arith.
Import ListNotations.

Set Implicit Arguments.

(* ================================================================== *)
(** ** JavaScript strings *)

Definition code_unit := N.
Definition jsstring := list code_unit.

Definition ch (a : ascii) : code_unit := N_of_ascii a.
Arguments ch a%_char.

(** A string literal of the source, as code units. *)
Definition str (s : string) : jsstring := map N_of_ascii (list_ascii_of_string s).
Arguments str s%_string.

(** [a === b] on strings *)
Fixpoint jsstring_eqb (a b : jsstring) : bool :=
  match a, b with
  | [], [] => true
  | x :: a', y :: b' => N.eqb x y && jsstring_eqb a' b'
  | _, _ => false
  end.

(** [s === ""] *)
Definition is_empty (s : jsstring) : bool :=
  match s with [] => true | _ :: _ => false end.

(* ================================================================== *)
(** ** Regular expressions *)

Module RegExp.

(** One member of a bracket expression: a single character or a range. *)
Inductive class_item :=
| Single (c : code_unit)
| Span (lo hi : code_unit).

Definition in_item (c : code_unit) (i : class_item) : bool :=
  match i with
  | Single d => N.eqb c d
  | Span lo hi => N.leb lo c && N.leb c hi
  end.

Definition in_class (cls : list class_item) (c : code_unit) : bool :=
  existsb (in_item c) cls.

(** LineTerminator of ECMAScript: LF, CR, LS, PS.  The pattern character
    [.] matches every code unit but these (no [s] flag). *)
Definition is_line_terminator (c : code_unit) : bool :=
  N.eqb c 10 || N.eqb c 13 || N.eqb c 8232 || N.eqb c 8233.

Inductive regex :=
| Void                                  (* matches nothing *)
| Eps                                   (* the empty pattern *)
| Class (cls : list class_item)         (* [...] *)
| Dot                                   (* . *)
| Cat (r1 r2 : regex)                   (* r1r2 *)
| Alt (r1 r2 : regex)                   (* r1|r2 *)
| Star (r : regex).                     (* r* *)

(** r? *)
Definition Opt (r : regex) : regex := Alt Eps r.
(** r+ *)
Definition Plus (r : regex) : regex := Cat r (Star r).

(** r{n} *)
Fixpoint Times (r : regex) (n : nat) : regex :=
  match n with
  | O => Eps
  | S k => Cat r (Times r k)
  end.

(** r{0,n} *)
Fixpoint UpTo (r : regex) (n : nat) : regex :=
  match n with
  | O => Eps
  | S k => Opt (Cat r (UpTo r k))
  end.

(** r{lo,hi} *)
Definition Range (r : regex) (lo hi : nat) : regex :=
  Cat (Times r lo) (UpTo r (hi - lo)).

(** The language of a pattern. *)
Inductive matches : regex -> jsstring -> Prop :=
| MEps : matches Eps []
| MClass cls c : in_class cls c = true -> matches (Class cls) [c]
| MDot c : is_line_terminator c = false -> matches Dot [c]
| MCat r1 r2 s1 s2 :
    matches r1 s1 -> matches r2 s2 -> matches (Cat r1 r2) (s1 ++ s2)
| MAltL r1 r2 s : matches r1 s -> matches (Alt r1 r2) s
| MAltR r1 r2 s : matches r2 s -> matches (Alt r1 r2) s
| MStarNil r : matches (Star r) []
| MStarApp r s1 s2 :
    matches r s1 -> matches (Star r) s2 -> matches (Star r) (s1 ++ s2).

Fixpoint nullable (r : regex) : bool :=
  match r with
  | Void => false
  | Eps => true
  | Class _ => false
  | Dot => false
  | Cat r1 r2 => nullable r1 && nullable r2
  | Alt r1 r2 => nullable r1 || nullable r2
  | Star _ => true
  end.

(** What remains of [r] once the code unit [c] has been read. *)
Fixpoint deriv (c : code_unit) (r : regex) : regex :=
  match r with
  | Void => Void
  | Eps => Void
  | Class cls => if in_class cls c then Eps else Void
  | Dot => if is_line_terminator c then Void else Eps
  | Cat r1 r2 =>
      if nullable r1
      then Alt (Cat (deriv c r1) r2) (deriv c r2)
      else Cat (deriv c r1) r2
  | Alt r1 r2 => Alt (deriv c r1) (deriv c r2)
  | Star r1 => Cat (deriv c r1) (Star r1)
  end.

(** Whole-string match: [new RegExp("^" + r + "$").test(s)]. *)
Fixpoint test (r : regex) (s : jsstring) : bool :=
  match s with
  | [] => nullable r
  | c :: s' => test (deriv c r) s'
  end.

End RegExp.

Import RegExp.

(* ================================================================== *)
(** ** Field validators (lines 22-31) *)

Definition lower := Span (ch "a") (ch "z").
Definition upper := Span (ch "A") (ch "Z").
Definition digit := Span (ch "0") (ch "9").

(** [[a-zA-Z0-9]] *)
Definition alnum : list class_item := [lower; upper; digit].
(** [[a-zA-Z0-9-]] *)
Definition alnum_hyphen : list class_item := [lower; upper; digit; Single (ch "-")].
(** [[a-zA-Z0-9.!#$%&'*+/=?^_`{|}~-]] *)
Definition local_part : list class_item :=
  [lower; upper; digit;
   Single (ch "."); Single (ch "!"); Single (ch "#"); Single (ch "$");
   Single (ch "%"); Single (ch "&"); Single (ch "'"); Single (ch "*");
   Single (ch "+"); Single (ch "/"); Single (ch "="); Single (ch "?");
   Single (ch "^"); Single (ch "_"); Single (ch "`"); Single (ch "{");
   Single (ch "|"); Single (ch "}"); Single (ch "~"); Single (ch "-")].
(** [[-a-zA-Z0-9_.]] *)
Definition username_class : list class_item :=
  [Single (ch "-"); lower; upper; digit; Single (ch "_"); Single (ch ".")].

(** [[a-zA-Z0-9](?:[a-zA-Z0-9-]{0,61}[a-zA-Z0-9])?] *)
Definition label : regex :=
  Cat (Class alnum) (Opt (Cat (Range (Class alnum_hyphen) 0 61) (Class alnum))).

(** The pattern of line 25, between [^] and [$]:
    [[a-zA-Z0-9.!#$%&'*+/=?^_`{|}~-]+@label(?:.label)*].
    The character before each further label is the pattern character [.],
    written without a backslash in the source string. *)
Definition emailRegex : regex :=
  Cat (Plus (Class local_part))
      (Cat (Class [Single (ch "@")])
           (Cat label (Star (Cat Dot label)))).

(** [^[-a-zA-Z0-9_.]{1,21}$] (line 29) *)
Definition usernameRegex : regex := Range (Class username_class) 1 21.

Definition isPasswordValid (password : jsstring) : bool :=
  6 <=? length password.

Definition isEmailValid (email : jsstring) : bool :=
  negb (is_empty email) && test emailRegex email.

Definition isUsernameValid (username : jsstring) : bool :=
  test usernameRegex username.

Definition isNotEmpty (s : jsstring) : bool := 0 <? length s.

(* ================================================================== *)
(** ** Collaborators of the form *)

(** [SignupType] of ./actions. *)
Inductive SignupType := JoinTeam | CreateTeam.

(** Modelled from the spec: the [LoginResult] enumeration of
    @codestream/protocols/api is not part of this file.  The form
    recognises four of its values; every other value is kept with its
    string form. *)
Inductive LoginResult :=
| Success
| NotOnTeam
| AlreadyConfirmed
| InviteConflict
| OtherResult (code : jsstring).

Record Props := mkProps {
  props_email : option jsstring;
  props_teamName : option jsstring;
  props_teamId : option jsstring;
  props_inviteCode : option jsstring;
  props_type : option SignupType
}.

(** The object literal of lines 106-113; [None] is [undefined]. *)
Record Attributes := mkAttributes {
  attr_email : jsstring;
  attr_username : jsstring;
  attr_password : jsstring;
  attr_fullName : jsstring;
  attr_inviteCode : option jsstring;
  attr_companyName : option jsstring
}.

(** What the promise of [HostApi.instance.send] settles to.  A rejection is
    kept by the string form of the rejected value, the only thing the
    handler uses of it. *)
Record RegisterUserResponse := mkResponse {
  status : LoginResult;
  token : option jsstring
}.

Inductive Settled :=
| Fulfilled (r : RegisterUserResponse)
| Rejected (reason : jsstring).

(** A primitive value or [undefined], as telemetry and log properties. *)
Inductive prim :=
| PStr (s : jsstring)
| PBool (b : bool)
| PUndefined.

Definition prim_of_option (o : option jsstring) : prim :=
  match o with Some s => PStr s | None => PUndefined end.

(** The actions handed to [dispatch], by their creators' names. *)
Inductive Action :=
| goToJoinTeam
| goToNewUserEntry
| goToEmailConfirmation (email : jsstring) (teamId : option jsstring)
                        (registrationParams : Attributes)
| goToTeamCreation (token : option jsstring) (email : jsstring)
| completeSignup (email : jsstring) (token teamId : option jsstring)
                 (createdTeam : bool)
| startSSOSignin (provider : jsstring) (info : option (SignupType * jsstring)).

(** Everything a handler does to the outside, in the order it does it. *)
Inductive Effect :=
| PreventDefault
| Send (attributes : Attributes)
| Track (event : jsstring) (properties : list (string * prim))
| Dispatch (a : Action)
| LogError (message : jsstring) (extra : list (string * prim)).

Definition is_send (e : Effect) : bool :=
  match e with Send _ => true | _ => false end.
Definition is_track (e : Effect) : bool :=
  match e with Track _ _ => true | _ => false end.
Definition is_dispatch (e : Effect) : bool :=
  match e with Dispatch _ => true | _ => false end.
Definition is_logError (e : Effect) : bool :=
  match e with LogError _ _ => true | _ => false end.

(* ================================================================== *)
(** ** Form state (lines 43-55) *)

Record SignupFormState := mkState {
  email : jsstring;
  emailValidity : bool;
  username : jsstring;
  usernameValidity : bool;
  password : jsstring;
  passwordValidity : bool;
  fullName : jsstring;
  fullNameValidity : bool;
  companyName : jsstring;
  companyNameValidity : bool;
  isLoading : bool;
  unexpectedError : bool;
  inviteConflict : bool
}.

(** The [useState] initial values; [props.email || ""]. *)
Definition initialState (props : Props) : SignupFormState :=
  {| email := match props_email props with Some e => e | None => [] end;
     emailValidity := true;
     username := [];
     usernameValidity := true;
     password := [];
     passwordValidity := true;
     fullName := [];
     fullNameValidity := true;
     companyName := [];
     companyNameValidity := true;
     isLoading := false;
     unexpectedError := false;
     inviteConflict := false |}.

(** The state setters, as the change each one schedules for the next render. *)
Definition setEmail (v : jsstring) (s : SignupFormState) : SignupFormState :=
  {| email := v; emailValidity := emailValidity s;
     username := username s; usernameValidity := usernameValidity s;
     password := password s; passwordValidity := passwordValidity s;
     fullName := fullName s; fullNameValidity := fullNameValidity s;
     companyName := companyName s;
     companyNameValidity := companyNameValidity s;
     isLoading := isLoading s; unexpectedError := unexpectedError s;
     inviteConflict := inviteConflict s |}.

Definition setEmailValidity (v : bool) (s : SignupFormState) : SignupFormState :=
  {| email := email s; emailValidity := v; username := username s;
     usernameValidity := usernameValidity s; password := password s;
     passwordValidity := passwordValidity s; fullName := fullName s;
     fullNameValidity := fullNameValidity s;
     companyName := companyName s;
     companyNameValidity := companyNameValidity s;
     isLoading := isLoading s; unexpectedError := unexpectedError s;
     inviteConflict := inviteConflict s |}.

Definition setUsername (v : jsstring) (s : SignupFormState) : SignupFormState :=
  {| email := email s; emailValidity := emailValidity s;
     username := v; usernameValidity := usernameValidity s;
     password := password s; passwordValidity := passwordValidity s;
     fullName := fullName s; fullNameValidity := fullNameValidity s;
     companyName := companyName s;
     companyNameValidity := companyNameValidity s;
     isLoading := isLoading s; unexpectedError := unexpectedError s;
     inviteConflict := inviteConflict s |}.

Definition setUsernameValidity (v : bool) (s : SignupFormState) : SignupFormState :=
  {| email := email s; emailValidity := emailValidity s;
     username := username s; usernameValidity := v;
     password := password s; passwordValidity := passwordValidity s;
     fullName := fullName s; fullNameValidity := fullNameValidity s;
     companyName := companyName s;
     companyNameValidity := companyNameValidity s;
     isLoading := isLoading s; unexpectedError := unexpectedError s;
     inviteConflict := inviteConflict s |}.

Definition setPassword (v : jsstring) (s : SignupFormState) : SignupFormState :=
  {| email := email s; emailValidity := emailValidity s;
     username := username s; usernameValidity := usernameValidity s;
     password := v; passwordValidity := passwordValidity s;
     fullName := fullName s; fullNameValidity := fullNameValidity s;
     companyName := companyName s;
     companyNameValidity := companyNameValidity s;
     isLoading := isLoading s; unexpectedError := unexpectedError s;
     inviteConflict := inviteConflict s |}.

Definition setPasswordValidity (v : bool) (s : SignupFormState) : SignupFormState :=
  {| email := email s; emailValidity := emailValidity s;
     username := username s; usernameValidity := usernameValidity s;
     password := password s; passwordValidity := v;
     fullName := fullName s; fullNameValidity := fullNameValidity s;
     companyName := companyName s;
     companyNameValidity := companyNameValidity s;
     isLoading := isLoading s; unexpectedError := unexpectedError s;
     inviteConflict := inviteConflict s |}.

Definition setFullName (v : jsstring) (s : SignupFormState) : SignupFormState :=
  {| email := email s; emailValidity := emailValidity s;
     username := username s; usernameValidity := usernameValidity s;
     password := password s; passwordValidity := passwordValidity s;
     fullName := v; fullNameValidity := fullNameValidity s;
     companyName := companyName s;
     companyNameValidity := companyNameValidity s;
     isLoading := isLoading s; unexpectedError := unexpectedError s;
     inviteConflict := inviteConflict s |}.

Definition setFullNameValidity (v : bool) (s : SignupFormState) : SignupFormState :=
  {| email := email s; emailValidity := emailValidity s;
     username := username s; usernameValidity := usernameValidity s;
     password := password s; passwordValidity := passwordValidity s;
     fullName := fullName s; fullNameValidity := v;
     companyName := companyName s;
     companyNameValidity := companyNameValidity s;
     isLoading := isLoading s; unexpectedError := unexpectedError s;
     inviteConflict := inviteConflict s |}.

Definition setCompanyName (v : jsstring) (s : SignupFormState) : SignupFormState :=
  {| email := email s; emailValidity := emailValidity s;
     username := username s; usernameValidity := usernameValidity s;
     password := password s; passwordValidity := passwordValidity s;
     fullName := fullName s; fullNameValidity := fullNameValidity s;
     companyName := v; companyNameValidity := companyNameValidity s;
     isLoading := isLoading s; unexpectedError := unexpectedError s;
     inviteConflict := inviteConflict s |}.

Definition setCompanyNameValidity (v : bool) (s : SignupFormState) : SignupFormState :=
  {| email := email s; emailValidity := emailValidity s;
     username := username s; usernameValidity := usernameValidity s;
     password := password s; passwordValidity := passwordValidity s;
     fullName := fullName s; fullNameValidity := fullNameValidity s;
     companyName := companyName s; companyNameValidity := v;
     isLoading := isLoading s; unexpectedError := unexpectedError s;
     inviteConflict := inviteConflict s |}.

Definition setIsLoading (v : bool) (s : SignupFormState) : SignupFormState :=
  {| email := email s; emailValidity := emailValidity s;
     username := username s; usernameValidity := usernameValidity s;
     password := password s; passwordValidity := passwordValidity s;
     fullName := fullName s; fullNameValidity := fullNameValidity s;
     companyName := companyName s;
     companyNameValidity := companyNameValidity s; isLoading := v;
     unexpectedError := unexpectedError s;
     inviteConflict := inviteConflict s |}.

Definition setUnexpectedError (v : bool) (s : SignupFormState) : SignupFormState :=
  {| email := email s; emailValidity := emailValidity s;
     username := username s; usernameValidity := usernameValidity s;
     password := password s; passwordValidity := passwordValidity s;
     fullName := fullName s; fullNameValidity := fullNameValidity s;
     companyName := companyName s;
     companyNameValidity := companyNameValidity s;
     isLoading := isLoading s; unexpectedError := v;
     inviteConflict := inviteConflict s |}.

Definition setInviteConflict (v : bool) (s : SignupFormState) : SignupFormState :=
  {| email := email s; emailValidity := emailValidity s;
     username := username s; usernameValidity := usernameValidity s;
     password := password s; passwordValidity := passwordValidity s;
     fullName := fullName s; fullNameValidity := fullNameValidity s;
     companyName := companyName s;
     companyNameValidity := companyNameValidity s;
     isLoading := isLoading s; unexpectedError := unexpectedError s;
     inviteConflict := v |}.

(* ================================================================== *)
(** ** Handlers as computations *)

(** While a handler runs, [pending] is the state the next render will see
    and [effects] is what has been done to the outside so far. *)
Record World := mkWorld {
  pending : SignupFormState;
  effects : list Effect
}.

(** The values the handler can have thrown at it: a rejected promise, or
    the status it throws itself; both by their string form. *)
Inductive Thrown :=
| RejectedWith (reason : jsstring)
| UnhandledStatus (code : jsstring).

(** [`${error}`] *)
Definition thrown_to_string (e : Thrown) : jsstring :=
  match e with
  | RejectedWith reason => reason
  | UnhandledStatus code => code
  end.

Inductive Completion (A : Type) :=
| Normal (a : A)
| Abrupt (e : Thrown).
Arguments Abrupt {A} e.

Definition M (A : Type) : Type := World -> Completion A * World.

Definition ret {A} (a : A) : M A := fun w => (Normal a, w).

Definition bind {A B} (m : M A) (k : A -> M B) : M B :=
  fun w =>
    match m w with
    | (Normal a, w') => k a w'
    | (Abrupt e, w') => (Abrupt e, w')
    end.

Definition throw {A} (e : Thrown) : M A := fun w => (Abrupt e, w).

(** [try { body } catch (error) { handler }] *)
Definition try_catch {A} (body : M A) (handler : Thrown -> M A) : M A :=
  fun w =>
    match body w with
    | (Normal a, w') => (Normal a, w')
    | (Abrupt e, w') => handler e w'
    end.

Definition emit (e : Effect) : M unit :=
  fun w => (Normal tt, mkWorld (pending w) (effects w ++ [e])).

(** Calling a state setter. *)
Definition call (setter : SignupFormState -> SignupFormState) : M unit :=
  fun w => (Normal tt, mkWorld (setter (pending w)) (effects w)).

Declare Scope handler_scope.
Delimit Scope handler_scope with handler.
Notation "x <- m ;; k" := (bind m (fun x => k))
  (at level 61, m at next level, right associativity) : handler_scope.
Notation "m ;; k" := (bind m (fun _ => k))
  (at level 61, right associativity) : handler_scope.
Open Scope handler_scope.

(** [Object.is] on two values of [props.type], either of which may be
    [undefined]. *)
Definition same_type (a b : option SignupType) : bool :=
  match a, b with
  | None, None => true
  | Some JoinTeam, Some JoinTeam => true
  | Some CreateTeam, Some CreateTeam => true
  | _, _ => false
  end.

(** [useCallback(f, [props.type])] across the renders of one mounted form.
    A render makes a new callback, closed over its own props, when its
    [props.type] is not that of the render before it; otherwise it keeps
    the callback it had.  [created] is the props the kept callback is
    closed over, [previous] the props of the render before, [later] the
    props of the renders still to come. *)
Fixpoint capturedProps (created previous : Props) (later : list Props) : Props :=
  match later with
  | [] => created
  | p :: rest =>
      capturedProps
        (if same_type (props_type previous) (props_type p) then created else p)
        p rest
  end.

(** The props a callback memoised on [props.type] is closed over in the
    latest render, the form having rendered with [first] and then with
    each of [later]. *)
Definition memoisedProps (first : Props) (later : list Props) : Props :=
  capturedProps first first later.

Section Signup.

Variable props : Props.

(** The state of the render whose handlers are running: the constants
    bound by the [useState] calls of lines 43-55. *)
Variable st : SignupFormState.

(** The registration endpoint, as the outcome of the awaited call. *)
Variable register : Attributes -> Settled.

(** [props.inviteCode !== undefined] (line 57) *)
Definition wasInvited : bool :=
  match props_inviteCode props with Some _ => true | None => false end.

(** Lines 59-80. *)
Definition onValidityChanged (field : jsstring) (validity : bool) : M unit :=
  if jsstring_eqb field (str "email") then call (setEmailValidity validity)
  else if jsstring_eqb field (str "username") then call (setUsernameValidity validity)
  else if jsstring_eqb field (str "password") then call (setPasswordValidity validity)
  else if jsstring_eqb field (str "fullName") then call (setFullNameValidity validity)
  else if jsstring_eqb field (str "companyName") then call (setCompanyNameValidity validity)
  else ret tt.

(** The condition of lines 93-102, on the constants of the render. *)
Definition submitBlocked : bool :=
  is_empty (email st) ||
  negb (emailValidity st) ||
  negb (usernameValidity st) ||
  is_empty (password st) ||
  negb (passwordValidity st) ||
  is_empty (fullName st) ||
  negb (fullNameValidity st) ||
  (negb wasInvited && (is_empty (companyName st) || negb (companyNameValidity st))).

(** Lines 106-113. *)
Definition attributes : Attributes :=
  {| attr_email := email st;
     attr_username := username st;
     attr_password := password st;
     attr_fullName := fullName st;
     attr_inviteCode := props_inviteCode props;
     attr_companyName := if wasInvited then None else Some (companyName st) |}.

(** [await HostApi.instance.send(RegisterUserRequestType, attributes)] *)
Definition send (a : Attributes) : M RegisterUserResponse :=
  emit (Send a) ;;
  match register a with
  | Fulfilled r => ret r
  | Rejected reason => throw (RejectedWith reason)
  end.

(** [email !== props.email] *)
Definition emailChanged : bool :=
  match props_email props with
  | Some e => negb (jsstring_eqb (email st) e)
  | None => true
  end.

(** Lines 116-121. *)
Definition sendTelemetry : M unit :=
  emit (Track (str "Account Created")
              [("email"%string, PStr (email st));
               ("Changed Invite Email?"%string,
                if wasInvited then PBool emailChanged else PUndefined)]).

Definition dispatch (a : Action) : M unit := emit (Dispatch a).

(** Lines 158-161. *)
Definition logError (e : Thrown) : M unit :=
  emit (LogError
          (str "Unexpected error during registration request: " ++ thrown_to_string e)
          [("email"%string, PStr (email st));
           ("inviteCode"%string, prim_of_option (props_inviteCode props))]).

(** Lines 82-165. *)
Definition onSubmit : M unit :=
  call (setInviteConflict false) ;;
  call (setUnexpectedError false) ;;
  emit PreventDefault ;;
  onValidityChanged (str "email") (isEmailValid (email st)) ;;
  onValidityChanged (str "password") (isPasswordValid (password st)) ;;
  onValidityChanged (str "username") (isUsernameValid (username st)) ;;
  onValidityChanged (str "fullName") (isNotEmpty (fullName st)) ;;
  onValidityChanged (str "companyName") (isNotEmpty (companyName st)) ;;
  if submitBlocked then ret tt
  else
    call (setIsLoading true) ;;
    try_catch
      (r <- send attributes ;;
       match status r with
       | Success =>
           sendTelemetry ;;
           dispatch (goToEmailConfirmation (attr_email attributes)
                                           (props_teamId props) attributes)
       | NotOnTeam =>
           sendTelemetry ;;
           dispatch (goToTeamCreation (token r) (attr_email attributes))
       | AlreadyConfirmed =>
           sendTelemetry ;;
           dispatch (completeSignup (attr_email attributes) (token r)
                                    (props_teamId props) false)
       | InviteConflict =>
           call (setInviteConflict true)
       | OtherResult code =>
           throw (UnhandledStatus code)
       end)
      (fun error =>
         logError error ;;
         call (setUnexpectedError true)) ;;
    call (setIsLoading false).

(** One submit attempt from the render [st]: how it completes, the state
    of the next render and the effects, oldest first. *)
Definition submit : Completion unit * World := onSubmit (mkWorld st []).

(** The state the next render sees after the attempt. *)
Definition nextState : SignupFormState := pending (snd submit).

(** What the attempt did to the outside, oldest first. *)
Definition trace : list Effect := effects (snd submit).

(** Lines 167-180. *)
Definition onClickGoBack : M unit :=
  emit PreventDefault ;;
  match props_type props with
  | Some JoinTeam => dispatch goToJoinTeam
  | _ => dispatch goToNewUserEntry
  end.

(** Lines 182-194.  The callback is memoised on [props.type] alone
    (line 193) and reads [props.inviteCode]: the props it reads are those
    of the render that made it, [created], which are [memoisedProps] of
    the renders so far and need not be the props of the current render.
    [props.inviteCode ? ... : undefined] takes the empty string as
    absent. *)
Definition onClickGithubSignup (created : Props) : M unit :=
  emit PreventDefault ;;
  emit (Track (str "Provider Auth Selected")
              [("Provider"%string, PStr (str "GitHub"))]) ;;
  dispatch (startSSOSignin (str "github")
              match props_inviteCode created with
              | Some (c :: code) => Some (JoinTeam, c :: code)
              | _ => None
              end).

(** The parts of the rendered form that depend on state (lines 196-366):
    which banners and inline errors are present.  The company field is
    absent for an invited user; otherwise its error shows iff the flag
    is false. *)
Record View := mkView {
  teamParagraph : bool;
  unexpectedErrorBanner : bool;
  inviteConflictBanner : bool;
  emailError : bool;
  passwordHelpIsError : bool;
  usernameHelpIsError : bool;
  fullNameError : bool;
  companyNameField : option bool
}.

Definition render : View :=
  {| teamParagraph := wasInvited;
     unexpectedErrorBanner := unexpectedError st;
     inviteConflictBanner := inviteConflict st;
     emailError := negb (emailValidity st);
     passwordHelpIsError := negb (passwordValidity st);
     usernameHelpIsError := negb (usernameValidity st);
     fullNameError := negb (fullNameValidity st);
     companyNameField :=
       if wasInvited then None else Some (negb (companyNameValidity st)) |}.

End Signup.

(** The state scheduled by lines 83-91: both banners reset and the five
    flags recomputed from the field values of the render. *)
Definition revalidated (st : SignupFormState) : SignupFormState :=
  setCompanyNameValidity (isNotEmpty (companyName st))
    (setFullNameValidity (isNotEmpty (fullName st))
       (setUsernameValidity (isUsernameValid (username st))
          (setPasswordValidity (isPasswordValid (password st))
             (setEmailValidity (isEmailValid (email st))
                (setUnexpectedError false (setInviteConflict false st)))))).

(** A form opened without invitation and without pre-filled email. *)
Definition plainProps : Props := mkProps None None None None None.

(** The user has typed an email, a password, a full name and a company name
    into the fresh form, and has not touched the username field. *)
Definition usernameUntouched : SignupFormState :=
  setCompanyName (str "Acme")
    (setFullName (str "Ann Lee")
       (setPassword (str "abcdef")
          (setEmail (str "ann@acme.io") (initialState plainProps)))).

(** The same form with a username typed in as well. *)
Definition filledIn : SignupFormState := setUsername (str "ann") usernameUntouched.

(** A form opened from an invitation sent to ann@acme.io. *)
Definition invitedProps : Props :=
  mkProps (Some (str "ann@acme.io")) (Some (str "Acme")) (Some (str "team-1"))
          (Some (str "invite-1")) (Some JoinTeam).

(** The invited user has typed everything the form shows; the company field
    is not shown and a former attempt has left its flag false. *)
Definition invitedFilledIn : SignupFormState :=
  setCompanyNameValidity false
    (setUsername (str "ann")
       (setFullName (str "Ann Lee")
          (setPassword (str "abcdef") (initialState invitedProps)))).

(** Registration endpoints with a fixed answer. *)
Definition acceptAll (a : Attributes) : Settled :=
  Fulfilled (mkResponse Success None).
Definition conflictAll (a : Attributes) : Settled :=
  Fulfilled (mkResponse InviteConflict None).
Definition rejectAll (a : Attributes) : Settled :=
  Rejected (str "Error: timeout").
Definition unknownStatusAll (a : Attributes) : Settled :=
  Fulfilled (mkResponse (OtherResult (str "MAINTENANCE_MODE")) None).

(* ================================================================== *)
(** ** The validators as the specification words them *)

Module Documented.

Definition is_letter (c : code_unit) : bool :=
  (N.leb (ch "a") c && N.leb c (ch "z")) || (N.leb (ch "A") c && N.leb c (ch "Z")).

Definition is_digit (c : code_unit) : bool :=
  N.leb (ch "0") c && N.leb c (ch "9").

Definition is_alnum (c : code_unit) : bool := is_letter c || is_digit c.

Definition is_hyphen (c : code_unit) : bool := N.eqb c (ch "-").

(** "a letter, digit, hyphen, underscore, or dot" *)
Definition username_char (c : code_unit) : bool :=
  is_letter c || is_digit c || is_hyphen c || N.eqb c (ch "_") || N.eqb c (ch ".").

(** "1 <= length(s) <= 21 and every character of s is a letter, digit,
    hyphen, underscore, or dot" *)
Definition username (s : jsstring) : bool :=
  (1 <=? length s) && (length s <=? 21) && forallb username_char s.

(** [s] cut at its first [sep]: what is before and what is after. *)
Fixpoint split_at (sep : code_unit) (s : jsstring) : option (jsstring * jsstring) :=
  match s with
  | [] => None
  | c :: s' =>
      if N.eqb c sep then Some ([], s')
      else match split_at sep s' with
           | Some (before, after) => Some (c :: before, after)
           | None => None
           end
  end.

(** The pieces of [s] between the occurrences of [sep]; never empty. *)
Fixpoint split_on (sep : code_unit) (s : jsstring) : list jsstring :=
  match s with
  | [] => [[]]
  | c :: s' =>
      if N.eqb c sep then [] :: split_on sep s'
      else match split_on sep s' with
           | piece :: pieces => (c :: piece) :: pieces
           | [] => [[c]]
           end
  end.

(** Each piece behind a separator, all in a row: with the first piece in
    front, the inverse of [split_on]. *)
Definition rejoin (sep : code_unit) (pieces : list jsstring) : jsstring :=
  concat (map (cons sep) pieces).

Fixpoint no_consecutive_hyphens (l : jsstring) : bool :=
  match l with
  | c :: (d :: _) as rest =>
      negb (is_hyphen c && is_hyphen d) && no_consecutive_hyphens rest
  | _ => true
  end.

(** "1-63 alphanumeric-or-hyphen characters", no leading and no trailing
    hyphen. *)
Definition label_shape (l : jsstring) : bool :=
  (1 <=? length l) && (length l <=? 63) &&
  forallb (fun c => is_alnum c || is_hyphen c) l &&
  negb (is_hyphen (hd 0%N l)) && negb (is_hyphen (last l 0%N)).

(** A label as the specification words it: "no consecutive, leading, or
    trailing hyphens". *)
Definition label_strict (l : jsstring) : bool :=
  label_shape l && no_consecutive_hyphens l.

(** "a local-part character class, '@', then domain labels ... separated
    by literal dots", for a given notion of label. *)
Definition email_of (label_ok : jsstring -> bool) (s : jsstring) : bool :=
  match split_at (ch "@") s with
  | Some (local, domain) =>
      negb (is_empty local) && forallb (in_class local_part) local &&
      forallb label_ok (split_on (ch ".") domain)
  | None => false
  end.

(** The documented pattern. *)
Definition email (s : jsstring) : bool := email_of label_strict s.

(** The documented pattern without the ban on consecutive hyphens. *)
Definition email_lenient (s : jsstring) : bool := email_of label_shape s.

(** A non-empty local part over its class, '@', and a domain that begins
    and ends with a letter or a digit. *)
Definition email_frame (s : jsstring) : bool :=
  match split_at (ch "@") s with
  | Some (local, domain) =>
      negb (is_empty local) && forallb (in_class local_part) local &&
      is_alnum (hd 0%N domain) && is_alnum (last domain 0%N)
  | None => false
  end.

End Documented.

(* ================================================================== *)
(** ** Reading the form back *)

(** The validity flag a field name addresses in [onValidityChanged], read
    instead of written; [None] for a name the switch does not know. *)
Definition validityOf (field : jsstring) (s : SignupFormState) : option bool :=
  if jsstring_eqb field (str "email") then Some (emailValidity s)
  else if jsstring_eqb field (str "username") then Some (usernameValidity s)
  else if jsstring_eqb field (str "password") then Some (passwordValidity s)
  else if jsstring_eqb field (str "fullName") then Some (fullNameValidity s)
  else if jsstring_eqb field (str "companyName") then Some (companyNameValidity s)
  else None.

(** Every validator accepts its field; the company name counts only for a
    user who was not invited. *)
Definition allFieldsValid (props : Props) (st : SignupFormState) : bool :=
  isEmailValid (email st) && isUsernameValid (username st) &&
  isPasswordValid (password st) && isNotEmpty (fullName st) &&
  (wasInvited props || isNotEmpty (companyName st)).

(** Labels, each behind a separator character of its own. *)
Definition separated (pieces : list (code_unit * jsstring)) : jsstring :=
  concat (map (fun p => fst p :: snd p) pieces).

(** Registration endpoints answering NotOnTeam and AlreadyConfirmed with a
    token. *)
Definition notOnTeamAll (a : Attributes) : Settled :=
  Fulfilled (mkResponse NotOnTeam (Some (str "token-1"))).
Definition alreadyConfirmedAll (a : Attributes) : Settled :=
  Fulfilled (mkResponse AlreadyConfirmed (Some (str "token-1"))).

(** A form opened with an invite code that is the empty string. *)
Definition emptyInviteProps : Props :=
  mkProps None None None (Some []) None.

(** A form opened to join a team, the invitation not yet known. *)
Definition joinTeamProps : Props :=
  mkProps None None None None (Some JoinTeam).

(* ================================================================== *)
(** * Properties *)

(** ** The derivative matcher decides the language of a pattern *)

Module RegExpFacts.

Create HintDb re.
#[local] Hint Constructors matches : re.

Ltac inv H := inversion H; subst; clear H.

Lemma matches_nil_app r1 r2 :
  matches r1 [] -> matches r2 [] -> matches (Cat r1 r2) [].
Proof.
  intros H1 H2. change (@nil code_unit) with (@nil code_unit ++ []).
  auto with re.
Qed.

Lemma nullable_matches r : nullable r = true <-> matches r [].
Proof.
  induction r; simpl; split; intros H;
    try discriminate; try solve [inv H]; auto with re.
  - apply andb_true_iff in H as [H1 H2].
    apply matches_nil_app; [apply IHr1 | apply IHr2]; assumption.
  - inv H.
    match goal with E : _ ++ _ = [] |- _ => apply app_eq_nil in E as [-> ->] end.
    apply andb_true_iff; split; [apply IHr1 | apply IHr2]; assumption.
  - apply orb_true_iff in H as [H | H];
      [apply MAltL, IHr1 | apply MAltR, IHr2]; assumption.
  - apply orb_true_iff. inv H; [left; apply IHr1 | right; apply IHr2]; assumption.
Qed.

Lemma matches_cat_cons r1 r2 c s :
  matches (Cat r1 r2) (c :: s) ->
  (exists s1 s2, s = s1 ++ s2 /\ matches r1 (c :: s1) /\ matches r2 s2) \/
  (matches r1 [] /\ matches r2 (c :: s)).
Proof.
  intros H. remember (Cat r1 r2) as r eqn:Er. remember (c :: s) as w eqn:Ew.
  destruct H; try discriminate. injection Er as -> ->.
  destruct s1 as [|d s1]; simpl in Ew.
  - right. subst. split; assumption.
  - injection Ew as -> <-. left. exists s1, s2. auto.
Qed.

Lemma matches_star_cons r c s :
  matches (Star r) (c :: s) ->
  exists s1 s2, s = s1 ++ s2 /\ matches r (c :: s1) /\ matches (Star r) s2.
Proof.
  intros H. remember (Star r) as r' eqn:Er. remember (c :: s) as w eqn:Ew.
  revert Er Ew. induction H; intros Er Ew; try discriminate.
  injection Er as ->. destruct s1 as [|d s1]; simpl in Ew.
  - apply IHmatches2; auto.
  - injection Ew as -> <-. exists s1, s2. auto.
Qed.

Lemma matches_cons_app r1 r2 c s1 s2 :
  matches r1 (c :: s1) -> matches r2 s2 -> matches (Cat r1 r2) (c :: s1 ++ s2).
Proof. intros H1 H2. apply (MCat H1 H2). Qed.

Lemma matches_app_nil_l r1 r2 s :
  matches r1 [] -> matches r2 s -> matches (Cat r1 r2) s.
Proof. intros H1 H2. apply (MCat H1 H2). Qed.

Ltac inv_step :=
  match goal with
  | H : matches Void _ |- _ => inversion H
  | H : matches Eps _ |- _ => inv H
  | H : matches (Alt _ _) _ |- _ => inv H
  | H : matches (Cat _ _) ?s |- _ => is_var s; inv H
  | H : matches (Class _) _ |- _ => inv H
  | H : matches Dot _ |- _ => inv H
  end.

Lemma deriv_sound r : forall c s, matches (deriv c r) s -> matches r (c :: s).
Proof.
  induction r; intros c s; simpl; intros H.
  - inv_step.
  - inv_step.
  - destruct (in_class cls c) eqn:E; inv_step. constructor. assumption.
  - destruct (is_line_terminator c) eqn:E; inv_step. constructor. assumption.
  - destruct (nullable r1) eqn:N; repeat inv_step.
    + apply matches_cons_app; auto.
    + apply matches_app_nil_l; auto. apply nullable_matches. assumption.
    + apply matches_cons_app; auto.
  - inv_step; [apply MAltL | apply MAltR]; auto.
  - inv_step. change (c :: s1 ++ s2) with ((c :: s1) ++ s2).
    apply MStarApp; auto.
Qed.

Lemma deriv_complete r : forall c s, matches r (c :: s) -> matches (deriv c r) s.
Proof.
  induction r; intros c s; simpl; intros H.
  - inv_step.
  - inv_step.
  - inv_step. match goal with E : in_class _ _ = true |- _ => rewrite E end.
    constructor.
  - inv_step. match goal with E : is_line_terminator _ = false |- _ => rewrite E end.
    constructor.
  - apply matches_cat_cons in H as [(s1 & s2 & -> & H1 & H2) | [H1 H2]].
    + destruct (nullable r1); [apply MAltL|]; constructor; auto.
    + apply nullable_matches in H1. rewrite H1. apply MAltR. auto.
  - inv_step; [apply MAltL | apply MAltR]; auto.
  - apply matches_star_cons in H as (s1 & s2 & -> & H1 & H2).
    constructor; auto.
Qed.

Lemma deriv_matches r c s : matches (deriv c r) s <-> matches r (c :: s).
Proof. split; [apply deriv_sound | apply deriv_complete]. Qed.

Theorem test_matches r s : test r s = true <-> matches r s.
Proof.
  revert r. induction s as [|c s IH]; intros r; simpl.
  - apply nullable_matches.
  - rewrite IH. apply deriv_matches.
Qed.

End RegExpFacts.

(** ** Bounded repetition of a character class *)

Module RangeFacts.

Import RegExpFacts.

Lemma matches_eps_inv s : matches Eps s -> s = [].
Proof. intros H. inversion H. reflexivity. Qed.

Lemma matches_class_inv cls s :
  matches (Class cls) s -> exists c, s = [c] /\ in_class cls c = true.
Proof. intros H. inversion H; subst. eauto. Qed.

Lemma matches_cat_inv r1 r2 s :
  matches (Cat r1 r2) s ->
  exists s1 s2, s = s1 ++ s2 /\ matches r1 s1 /\ matches r2 s2.
Proof. intros H. inversion H; subst. eauto. Qed.

Lemma matches_alt_inv r1 r2 s :
  matches (Alt r1 r2) s -> matches r1 s \/ matches r2 s.
Proof. intros H. inversion H; subst; auto. Qed.

Lemma matches_times cls n : forall s,
  matches (Times (Class cls) n) s <->
  length s = n /\ forallb (in_class cls) s = true.
Proof.
  induction n as [|n IH]; intros s; simpl.
  - split.
    + intros H. apply matches_eps_inv in H. subst. auto.
    + intros [H _]. apply length_zero_iff_nil in H. subst. constructor.
  - split.
    + intros H. apply matches_cat_inv in H as (s1 & s2 & -> & H1 & H2).
      apply matches_class_inv in H1 as (c & -> & Hc).
      apply IH in H2 as [Hl Hf]. simpl. rewrite Hc, Hf, Hl. auto.
    + intros [Hl Hf]. destruct s as [|c s]; [discriminate|].
      simpl in *. apply andb_true_iff in Hf as [Hc Hf].
      apply (MCat (s1 := [c])); [constructor; assumption|].
      apply IH. split; [lia | assumption].
Qed.

Lemma matches_upto cls n : forall s,
  matches (UpTo (Class cls) n) s <->
  length s <= n /\ forallb (in_class cls) s = true.
Proof.
  induction n as [|n IH]; intros s; simpl.
  - split.
    + intros H. apply matches_eps_inv in H. subst. auto.
    + intros [H _]. destruct s; [constructor | simpl in H; lia].
  - split.
    + intros H. apply matches_alt_inv in H as [H | H].
      * apply matches_eps_inv in H. subst. simpl. split; [lia | reflexivity].
      * apply matches_cat_inv in H as (s1 & s2 & -> & H1 & H2).
        apply matches_class_inv in H1 as (c & -> & Hc).
        apply IH in H2 as [Hl Hf]. simpl. rewrite Hc, Hf. split; [lia | reflexivity].
    + intros [Hl Hf]. destruct s as [|c s]; [apply MAltL; constructor|].
      simpl in *. apply andb_true_iff in Hf as [Hc Hf].
      apply MAltR. apply (MCat (s1 := [c])); [constructor; assumption|].
      apply IH. split; [lia | assumption].
Qed.

Lemma matches_range cls lo hi s :
  lo <= hi ->
  (matches (Range (Class cls) lo hi) s <->
   lo <= length s <= hi /\ forallb (in_class cls) s = true).
Proof.
  intros Hle. unfold Range. split.
  - intros H. apply matches_cat_inv in H as (s1 & s2 & -> & H1 & H2).
    apply matches_times in H1 as [L1 F1]. apply matches_upto in H2 as [L2 F2].
    rewrite length_app, forallb_app, F1, F2. split; [lia | reflexivity].
  - intros [Hl Hf]. rewrite <- (firstn_skipn lo s) in Hf |- *.
    rewrite forallb_app in Hf. apply andb_true_iff in Hf as [F1 F2].
    constructor.
    + apply matches_times. split; [|assumption]. rewrite length_firstn. lia.
    + apply matches_upto. split; [|assumption]. rewrite length_skipn. lia.
Qed.

Lemma test_range cls lo hi s :
  lo <= hi ->
  test (Range (Class cls) lo hi) s =
  (lo <=? length s) && (length s <=? hi) && forallb (in_class cls) s.
Proof.
  intros Hle. apply eq_true_iff_eq.
  rewrite test_matches, (matches_range cls s Hle).
  rewrite !andb_true_iff, !Nat.leb_le. tauto.
Qed.

End RangeFacts.

(** ** Username validator *)

Lemma forallb_pointwise {A} (f g : A -> bool) (l : list A) :
  (forall x, f x = g x) -> forallb f l = forallb g l.
Proof.
  intros E. induction l as [|x l IH]; simpl; [reflexivity|].
  rewrite E, IH. reflexivity.
Qed.

Lemma username_class_documented c :
  in_class username_class c = Documented.username_char c.
Proof.
  unfold in_class, username_class, Documented.username_char, Documented.is_letter,
    Documented.is_digit, Documented.is_hyphen, lower, upper, digit. simpl.
  repeat match goal with
         | |- context [N.eqb ?a ?b] => destruct (N.eqb a b)
         | |- context [N.leb ?a ?b] => destruct (N.leb a b)
         end; reflexivity.
Qed.

Lemma isUsernameValid_unfold (s : jsstring) :
  isUsernameValid s =
  (1 <=? length s) && (length s <=? 21) && forallb Documented.username_char s.
Proof.
  unfold isUsernameValid, usernameRegex.
  rewrite RangeFacts.test_range by lia.
  f_equal. apply forallb_pointwise. intros c. apply username_class_documented.
Qed.

(** ** Email validator *)

Module EmailFacts.

Import RegExpFacts RangeFacts Documented.

Ltac bool_cases :=
  repeat match goal with
         | |- context [N.eqb ?a ?b] => destruct (N.eqb a b)
         | |- context [N.leb ?a ?b] => destruct (N.leb a b)
         end.

Lemma alnum_documented c : in_class alnum c = is_alnum c.
Proof.
  unfold in_class, alnum, is_alnum, is_letter, is_digit, lower, upper, digit.
  simpl. bool_cases; reflexivity.
Qed.

Lemma alnum_hyphen_documented c :
  in_class alnum_hyphen c = (is_alnum c || is_hyphen c).
Proof.
  unfold in_class, alnum_hyphen, is_alnum, is_letter, is_digit, is_hyphen,
    lower, upper, digit.
  simpl. bool_cases; reflexivity.
Qed.

Lemma alnum_not_hyphen c :
  (is_alnum c || is_hyphen c) = true -> is_hyphen c = false -> is_alnum c = true.
Proof. intros H N. rewrite N, orb_false_r in H. assumption. Qed.

(** *** Cutting and joining *)

Lemma split_at_app sep s local domain :
  split_at sep s = Some (local, domain) -> s = local ++ sep :: domain.
Proof.
  revert local. induction s as [|c s IH]; intros local; simpl; [discriminate|].
  destruct (N.eqb_spec c sep) as [-> | Hne].
  - intros [= <- <-]. reflexivity.
  - destruct (split_at sep s) as [[b a]|]; [|discriminate].
    intros [= <- <-]. simpl. f_equal. apply IH. reflexivity.
Qed.

Lemma split_at_first sep local domain :
  forallb (fun c => negb (N.eqb c sep)) local = true ->
  split_at sep (local ++ sep :: domain) = Some (local, domain).
Proof.
  induction local as [|c local IH]; simpl; intros H.
  - rewrite N.eqb_refl. reflexivity.
  - apply andb_true_iff in H as [Hc H].
    apply negb_true_iff in Hc. rewrite Hc, (IH H). reflexivity.
Qed.

Lemma split_on_rejoin sep s :
  exists piece pieces,
    split_on sep s = piece :: pieces /\ s = piece ++ rejoin sep pieces.
Proof.
  induction s as [|c s (piece & pieces & E & Es)]; simpl.
  - exists [], []. auto.
  - destruct (N.eqb_spec c sep) as [-> | Hne].
    + exists [], (split_on sep s). split; [reflexivity|].
      rewrite E. unfold rejoin. simpl. f_equal. assumption.
    + rewrite E. exists (c :: piece), pieces. split; [reflexivity|].
      simpl. f_equal. assumption.
Qed.

(** *** From the lenient documented pattern to the source pattern *)

Lemma matches_star_class cls l :
  forallb (in_class cls) l = true -> matches (Star (Class cls)) l.
Proof.
  induction l as [|c l IH]; simpl; intros H; [constructor|].
  apply andb_true_iff in H as [Hc H].
  apply (MStarApp (s1 := [c])); [constructor; assumption | auto].
Qed.

Lemma matches_plus_class cls l :
  is_empty l = false -> forallb (in_class cls) l = true ->
  matches (Plus (Class cls)) l.
Proof.
  destruct l as [|c l]; simpl; [discriminate|]. intros _ H.
  apply andb_true_iff in H as [Hc H].
  apply (MCat (s1 := [c])); [constructor; assumption|].
  apply matches_star_class. assumption.
Qed.

Lemma label_shape_matches l : label_shape l = true -> matches label l.
Proof.
  unfold label_shape. rewrite !andb_true_iff, !negb_true_iff, !Nat.leb_le.
  intros [[[[Hlo Hhi] Hall] Hhd] Hlast].
  destruct l as [|a t]; [simpl in Hlo; lia|].
  simpl in Hall. apply andb_true_iff in Hall as [Ha Hall].
  simpl in Hhd. apply (MCat (s1 := [a])).
  { constructor. rewrite alnum_documented. apply alnum_not_hyphen; assumption. }
  destruct t as [|b t]; [apply MAltL; constructor|].
  apply MAltR.
  assert (Hne : b :: t <> []) by discriminate.
  destruct (exists_last Hne) as (m & e & Em). rewrite Em in *. clear Em Hne.
  change (a :: m ++ [e]) with ((a :: m) ++ [e]) in Hlast, Hhi.
  rewrite last_last in Hlast. rewrite length_app in Hhi. cbn [length] in Hhi.
  rewrite forallb_app in Hall. apply andb_true_iff in Hall as [Hmid Hend].
  cbn [forallb] in Hend. rewrite andb_true_r in Hend.
  constructor.
  - apply matches_range; [lia|]. split; [lia|].
    rewrite <- Hmid. apply forallb_pointwise. apply alnum_hyphen_documented.
  - constructor. rewrite alnum_documented. apply alnum_not_hyphen; assumption.
Qed.

Lemma dot_is_not_a_line_terminator : is_line_terminator (ch ".") = false.
Proof. reflexivity. Qed.

Lemma labels_match pieces :
  forallb label_shape pieces = true ->
  matches (Star (Cat Dot label)) (rejoin (ch ".") pieces).
Proof.
  induction pieces as [|l pieces IH]; simpl; intros H; [constructor|].
  apply andb_true_iff in H as [Hl H].
  unfold rejoin. simpl.
  apply (MStarApp (s1 := ch "." :: l)); [|apply IH; assumption].
  apply (MCat (s1 := [ch "."])).
  - constructor. apply dot_is_not_a_line_terminator.
  - apply label_shape_matches. assumption.
Qed.

Lemma email_lenient_matches s :
  email_lenient s = true -> matches emailRegex s.
Proof.
  unfold email_lenient, email_of.
  destruct (split_at (ch "@") s) as [[local domain]|] eqn:E; [|discriminate].
  rewrite !andb_true_iff, negb_true_iff. intros [[Hne Hloc] Hlab].
  apply split_at_app in E. subst s.
  destruct (split_on_rejoin (ch ".") domain) as (l & pieces & Es & ->).
  rewrite Es in Hlab. simpl in Hlab. apply andb_true_iff in Hlab as [Hl Hps].
  unfold emailRegex. constructor; [apply matches_plus_class; assumption|].
  apply (MCat (s1 := [ch "@"])); [constructor; reflexivity|].
  constructor; [apply label_shape_matches | apply labels_match]; assumption.
Qed.

Lemma email_lenient_accepted s : email_lenient s = true -> isEmailValid s = true.
Proof.
  intros H. unfold isEmailValid. apply andb_true_iff. split.
  - destruct s; [discriminate H | reflexivity].
  - apply test_matches, email_lenient_matches, H.
Qed.

(** *** What every accepted string looks like *)

Lemma last_app_cons {A} (l : list A) (x : A) (t : list A) (d : A) :
  last (l ++ x :: t) d = last (x :: t) d.
Proof.
  induction l as [|y l IH]; [reflexivity|].
  cbn [app]. rewrite <- IH. destruct l; reflexivity.
Qed.

Lemma label_frame s :
  matches label s ->
  is_alnum (hd 0%N s) = true /\ is_alnum (last s 0%N) = true.
Proof.
  unfold label. intros H.
  apply matches_cat_inv in H as (s1 & t & -> & H1 & H2).
  apply matches_class_inv in H1 as (a & -> & Ha). rewrite alnum_documented in Ha.
  split; [assumption|].
  apply matches_alt_inv in H2 as [H2 | H2].
  - apply matches_eps_inv in H2. subst. assumption.
  - apply matches_cat_inv in H2 as (m & e & -> & _ & He).
    apply matches_class_inv in He as (b & -> & Hb). rewrite alnum_documented in Hb.
    rewrite app_assoc, last_last. assumption.
Qed.

Lemma labels_frame t :
  matches (Star (Cat Dot label)) t -> t = [] \/ is_alnum (last t 0%N) = true.
Proof.
  intros H. remember (Star (Cat Dot label)) as r eqn:Er.
  induction H; try discriminate; [left; reflexivity|].
  injection Er as ->. right.
  destruct (IHmatches2 eq_refl) as [-> | Hl].
  - rewrite app_nil_r.
    apply matches_cat_inv in H as (d & l & -> & _ & Hlab).
    destruct (label_frame Hlab) as [Hhd Hlast].
    destruct l as [|x l]; [discriminate Hhd|].
    rewrite last_app_cons. assumption.
  - destruct s2 as [|x s2]; [discriminate Hl|].
    rewrite last_app_cons. assumption.
Qed.

Lemma matches_star_class_inv cls l :
  matches (Star (Class cls)) l -> forallb (in_class cls) l = true.
Proof.
  intros H. remember (Star (Class cls)) as r eqn:Er.
  induction H; try discriminate; [reflexivity|].
  injection Er as ->. apply matches_class_inv in H as (c & -> & Hc).
  simpl. rewrite Hc. apply IHmatches2. reflexivity.
Qed.

Lemma matches_plus_class_inv cls l :
  matches (Plus (Class cls)) l ->
  is_empty l = false /\ forallb (in_class cls) l = true.
Proof.
  unfold Plus. intros H. apply matches_cat_inv in H as (s1 & s2 & -> & H1 & H2).
  apply matches_class_inv in H1 as (c & -> & Hc).
  apply matches_star_class_inv in H2. simpl. rewrite Hc, H2. auto.
Qed.

Lemma local_part_excludes_at c :
  in_class local_part c = true -> negb (N.eqb c (ch "@")) = true.
Proof.
  destruct (N.eqb_spec c (ch "@")) as [-> | _]; [|reflexivity].
  vm_compute. discriminate.
Qed.

Lemma forallb_impl {A} (f g : A -> bool) (l : list A) :
  (forall x, f x = true -> g x = true) ->
  forallb f l = true -> forallb g l = true.
Proof.
  intros I. induction l as [|x l IH]; simpl; [reflexivity|].
  rewrite !andb_true_iff. intros [Hx Hl]. auto.
Qed.

Lemma matches_email_frame s : matches emailRegex s -> email_frame s = true.
Proof.
  unfold emailRegex. intros H.
  apply matches_cat_inv in H as (local & rest & -> & Hloc & H).
  apply matches_cat_inv in H as (at_ & domain & -> & Hat & H).
  apply matches_class_inv in Hat as (c & -> & Hc).
  simpl in Hc. rewrite orb_false_r in Hc. apply N.eqb_eq in Hc. subst c.
  apply matches_plus_class_inv in Hloc as [Hne Hall].
  apply matches_cat_inv in H as (l & t & -> & Hl & Ht).
  destruct (label_frame Hl) as [Hhd Hlast].
  apply labels_frame in Ht.
  unfold email_frame. cbn [app].
  rewrite split_at_first
    by (revert Hall; apply forallb_impl, local_part_excludes_at).
  rewrite Hne, Hall. cbn [negb andb].
  destruct l as [|x l]; [discriminate Hhd|].
  cbn [app hd]. cbn [hd] in Hhd. rewrite Hhd. cbn [andb].
  destruct Ht as [-> | Ht].
  - rewrite app_nil_r. assumption.
  - destruct t as [|y t]; [discriminate Ht|].
    change (x :: l ++ y :: t) with ((x :: l) ++ y :: t).
    rewrite last_app_cons. assumption.
Qed.

Lemma email_accepted_frame s : isEmailValid s = true -> email_frame s = true.
Proof.
  unfold isEmailValid. intros H. apply andb_true_iff in H as [_ H].
  apply matches_email_frame, test_matches, H.
Qed.

End EmailFacts.

(** ** The submit handler, step by step *)

Module SubmitFacts.

Lemma jsstring_eqb_eq a : forall b, jsstring_eqb a b = true <-> a = b.
Proof.
  induction a as [|x a IH]; intros [|y b]; simpl; split; intros H;
    try discriminate; try reflexivity.
  - apply andb_true_iff in H as [Hx H]. apply N.eqb_eq in Hx. apply IH in H.
    congruence.
  - injection H as -> ->. rewrite N.eqb_refl. apply IH. reflexivity.
Qed.

Lemma jsstring_eqb_neq a b : a <> b -> jsstring_eqb a b = false.
Proof.
  intros N. destruct (jsstring_eqb a b) eqn:E; [|reflexivity].
  apply jsstring_eqb_eq in E. contradiction.
Qed.

Lemma submit_blocked props st register :
  submitBlocked props st = true ->
  submit props st register = (Normal tt, mkWorld (revalidated st) [PreventDefault]).
Proof.
  intros B. unfold submit, onSubmit. rewrite B. reflexivity.
Qed.

Lemma emailChanged_spec props st :
  emailChanged props st = true <-> props_email props <> Some (email st).
Proof.
  unfold emailChanged. destruct (props_email props) as [e|].
  - rewrite negb_true_iff. split.
    + intros H [= ->]. rewrite (proj2 (jsstring_eqb_eq _ _) eq_refl) in H.
      discriminate.
    + intros H. apply jsstring_eqb_neq. congruence.
  - split; [discriminate | reflexivity].
Qed.

(** Runs one attempt whose gate is known to pass ([B]) and whose request
    is known to settle as [R] says. *)
Ltac run_submit B R :=
  unfold nextState, trace, submit, onSubmit; rewrite B;
  unfold bind, try_catch, send, call, emit, ret, throw; cbn;
  rewrite R; cbn.

End SubmitFacts.

(** ** Labels of the source pattern are labels of the documented shape *)

Lemma alnum_is_not_hyphen (c : code_unit) :
  Documented.is_alnum c = true -> Documented.is_hyphen c = false.
Proof.
  intros H. unfold Documented.is_hyphen.
  destruct (N.eqb_spec c (ch "-")) as [-> | _];
    [vm_compute in H; discriminate H | reflexivity].
Qed.

Lemma alnum_single_label (a : code_unit) :
  Documented.is_alnum a = true -> Documented.label_shape [a] = true.
Proof.
  intros H. unfold Documented.label_shape. cbn.
  rewrite H, (alnum_is_not_hyphen a H). reflexivity.
Qed.

Lemma alnum_double_label (a b : code_unit) :
  Documented.is_alnum a = true -> Documented.is_alnum b = true ->
  Documented.label_shape [a; b] = true.
Proof.
  intros Ha Hb. unfold Documented.label_shape. cbn.
  rewrite Ha, Hb, (alnum_is_not_hyphen a Ha), (alnum_is_not_hyphen b Hb). reflexivity.
Qed.

Module EmailShape.

Import RegExpFacts RangeFacts Documented EmailFacts.

Lemma matches_label_shape (l : jsstring) : matches label l -> label_shape l = true.
Proof.
  unfold label. intros H.
  apply matches_cat_inv in H as (s1 & t & -> & H1 & H2).
  apply matches_class_inv in H1 as (a & -> & Ha). rewrite alnum_documented in Ha.
  apply matches_alt_inv in H2 as [H2 | H2].
  - apply matches_eps_inv in H2. subst. apply alnum_single_label, Ha.
  - apply matches_cat_inv in H2 as (m & e & -> & Hm & He).
    apply matches_class_inv in He as (b & -> & Hb). rewrite alnum_documented in Hb.
    apply matches_range in Hm as [[_ Lm] Hm]; [|lia].
    unfold label_shape. cbn [app hd].
    change (a :: m ++ [b]) with ((a :: m) ++ [b]).
    rewrite last_last, length_app, forallb_app. cbn [length forallb].
    rewrite (alnum_is_not_hyphen a Ha), (alnum_is_not_hyphen b Hb), Ha, Hb.
    rewrite (forallb_pointwise _ (in_class alnum_hyphen) m)
      by (intros c; symmetry; apply alnum_hyphen_documented).
    rewrite Hm. cbn.
    replace (length m + 1) with (S (length m)) by lia.
    cbn. rewrite !andb_true_r. apply Nat.leb_le. lia.
Qed.

Lemma matches_labels_separated (t : jsstring) :
  matches (Star (Cat Dot label)) t ->
  exists pieces,
    t = separated pieces /\
    forallb (fun p => negb (is_line_terminator (fst p)) && label_shape (snd p)) pieces
      = true.
Proof.
  intros H. remember (Star (Cat Dot label)) as r eqn:Er.
  induction H; try discriminate; [exists []; split; reflexivity|].
  injection Er as ->. destruct (IHmatches2 eq_refl) as (pieces & -> & Hp).
  apply matches_cat_inv in H as (d & l & -> & Hd & Hl).
  inversion Hd as [| |c Hc| | | | |]; subst.
  exists ((c, l) :: pieces). split.
  - unfold separated. cbn. rewrite <- ?app_assoc. reflexivity.
  - cbn [forallb fst snd]. rewrite Hc, (matches_label_shape Hl), Hp. reflexivity.
Qed.

Lemma email_accepted_parts (s : jsstring) :
  isEmailValid s = true ->
  exists local l0 pieces,
    s = local ++ ch "@" :: l0 ++ separated pieces /\
    is_empty local = false /\
    forallb (in_class local_part) local = true /\
    label_shape l0 = true /\
    forallb (fun p => negb (is_line_terminator (fst p)) && label_shape (snd p)) pieces
      = true.
Proof.
  unfold isEmailValid. intros H. apply andb_true_iff in H as [_ H].
  apply test_matches in H. unfold emailRegex in H.
  apply matches_cat_inv in H as (local & rest & -> & Hloc & H).
  apply matches_cat_inv in H as (at_ & domain & -> & Hat & H).
  apply matches_class_inv in Hat as (c & -> & Hc).
  cbn in Hc. rewrite orb_false_r in Hc. apply N.eqb_eq in Hc. subst c.
  apply matches_cat_inv in H as (l0 & t & -> & Hl & Ht).
  apply matches_plus_class_inv in Hloc as [Hne Hall].
  apply matches_labels_separated in Ht as (pieces & -> & Hp).
  exists local, l0, pieces. repeat split; try assumption.
  apply matches_label_shape, Hl.
Qed.

End EmailShape.

(** ** Claims on the validators *)

Example isEmailValid_simple : isEmailValid (str "a@b.co") = true.
Proof. vm_compute. reflexivity. Qed.

Example isEmailValid_empty : isEmailValid (str "") = false.
Proof. vm_compute. reflexivity. Qed.

Example isEmailValid_two_ats : isEmailValid (str "a@@b.com") = false.
Proof. vm_compute. reflexivity. Qed.

(** The character between two labels is the pattern character [.]: a
    space there is accepted as well. *)
Example isEmailValid_space_between_labels : isEmailValid (str "a@b c") = true.
Proof. vm_compute. reflexivity. Qed.

(** C2, as stated, fails: a@b--c.co is accepted although its label b--c
    has consecutive hyphens, which the documented pattern excludes. *)
Lemma isEmailValid_not_documented :
  ~ (isEmailValid (str "a@b--c.co") = true <->
     str "a@b--c.co" <> [] /\ Documented.email (str "a@b--c.co") = true).
Proof.
  intros [H _].
  assert (V : isEmailValid (str "a@b--c.co") = true) by (vm_compute; reflexivity).
  destruct (H V) as [_ D]. vm_compute in D. discriminate D.
Qed.

(** C2, amended. For every string s: if s is a non-empty local part over
    the local-part class, then '@', then labels of 1-63
    alphanumeric-or-hyphen characters separated by literal dots, no label
    beginning or ending with a hyphen (consecutive hyphens inside a label
    are allowed), the email validator returns true; and whenever the
    validator returns true, s is a non-empty local part over that class,
    then '@', then one or more such labels, each label after the first
    preceded by exactly one character, which is not a line terminator: no
    label is empty or begins or ends with a hyphen, and the domain begins
    and ends with a letter or digit. *)
Theorem isEmailValid_lenient_frame (s : jsstring) :
  (Documented.email_lenient s = true -> isEmailValid s = true) /\
  (isEmailValid s = true ->
   s <> [] /\ Documented.email_frame s = true /\
   exists local l0 pieces,
     s = local ++ ch "@" :: l0 ++ separated pieces /\
     is_empty local = false /\
     forallb (in_class local_part) local = true /\
     Documented.label_shape l0 = true /\
     forallb (fun p => negb (is_line_terminator (fst p)) &&
                       Documented.label_shape (snd p)) pieces = true).
Proof.
  split.
  - apply EmailFacts.email_lenient_accepted.
  - intros H. split; [|split].
    + intros ->. discriminate H.
    + apply EmailFacts.email_accepted_frame, H.
    + apply EmailShape.email_accepted_parts, H.
Qed.

Lemma isEmailValid_lenient_frame_witness :
  Documented.email_lenient (str "a@b--c.co") = true /\
  isEmailValid (str "a@b--c.co") = true /\
  Documented.email_frame (str "a@b--c.co") = true /\
  exists local l0 pieces,
    str "a@b--c.co" = local ++ ch "@" :: l0 ++ separated pieces /\
    is_empty local = false /\
    forallb (in_class local_part) local = true /\
    Documented.label_shape l0 = true /\
    forallb (fun p => negb (is_line_terminator (fst p)) &&
                      Documented.label_shape (snd p)) pieces = true.
Proof.
  split; [reflexivity|].
  assert (V : isEmailValid (str "a@b--c.co") = true).
  { apply (proj1 (isEmailValid_lenient_frame (str "a@b--c.co"))). reflexivity. }
  split; [exact V|].
  destruct (proj2 (isEmailValid_lenient_frame (str "a@b--c.co")) V) as (_ & F & P).
  split; [exact F | exact P].
Defined.

(** The strings with an empty label or with a label that begins or ends
    with a hyphen are rejected, as are several characters between two
    labels. *)
Example isEmailValid_rejects_malformed_labels :
  map isEmailValid [str "a@b..co"; str "a@b-.co"; str "a@b.-co"; str "a@b!!!c";
                    str "a@.b"; str "a@b."; str "a@-b"; str "a@b-"] =
  [false; false; false; false; false; false; false; false].
Proof. vm_compute. reflexivity. Qed.

Example isUsernameValid_empty : isUsernameValid (str "") = false.
Proof. vm_compute. reflexivity. Qed.

Example isUsernameValid_mixed : isUsernameValid (str "a.b-c_9") = true.
Proof. vm_compute. reflexivity. Qed.

Lemma isUsernameValid_22 (s : jsstring) : length s = 22 -> isUsernameValid s = false.
Proof. intros L. rewrite isUsernameValid_unfold, L. reflexivity. Qed.

(** C8. For every string s, the username validator returns true exactly
    when 1 <= length(s) <= 21 and every character of s is a letter, a
    digit, a hyphen, an underscore or a dot. *)
Theorem isUsernameValid_documented (s : jsstring) :
  isUsernameValid s = Documented.username s.
Proof. unfold Documented.username. apply isUsernameValid_unfold. Qed.

(** ** Claims on the handlers *)

Import SubmitFacts.

(** C10. Calling the validity-change callback with a field name other than
    email, username, password, fullName and companyName, and any boolean,
    leaves the five validity flags (and everything else) as they were. *)
Theorem onValidityChanged_unknown_field
    (field : jsstring) (validity : bool) (w : World) :
  field <> str "email" -> field <> str "username" -> field <> str "password" ->
  field <> str "fullName" -> field <> str "companyName" ->
  onValidityChanged field validity w = (Normal tt, w).
Proof.
  intros H1 H2 H3 H4 H5. unfold onValidityChanged.
  rewrite !jsstring_eqb_neq by assumption. reflexivity.
Qed.

Lemma onValidityChanged_unknown_field_witness :
  onValidityChanged (str "phone") false (mkWorld (initialState plainProps) []) =
  (Normal tt, mkWorld (initialState plainProps) []).
Proof.
  apply (onValidityChanged_unknown_field (field := str "phone"));
    vm_compute; discriminate.
Defined.

(** C7. Submitting with all five text fields empty sends nothing to the
    registration endpoint and leaves all five validity flags false. *)
Theorem submit_all_empty (props : Props) (st : SignupFormState)
    (register : Attributes -> Settled) :
  email st = [] -> username st = [] -> password st = [] ->
  fullName st = [] -> companyName st = [] ->
  filter is_send (trace props st register) = [] /\
  emailValidity (nextState props st register) = false /\
  usernameValidity (nextState props st register) = false /\
  passwordValidity (nextState props st register) = false /\
  fullNameValidity (nextState props st register) = false /\
  companyNameValidity (nextState props st register) = false.
Proof.
  intros E U P F C.
  assert (B : submitBlocked props st = true).
  { unfold submitBlocked. rewrite E. reflexivity. }
  unfold trace, nextState. rewrite (submit_blocked props st register B).
  cbn. rewrite E, U, P, F, C. repeat split; reflexivity.
Qed.

Lemma submit_all_empty_witness :
  filter is_send (trace plainProps (initialState plainProps) acceptAll) = [] /\
  emailValidity (nextState plainProps (initialState plainProps) acceptAll) = false /\
  usernameValidity (nextState plainProps (initialState plainProps) acceptAll) = false /\
  passwordValidity (nextState plainProps (initialState plainProps) acceptAll) = false /\
  fullNameValidity (nextState plainProps (initialState plainProps) acceptAll) = false /\
  companyNameValidity (nextState plainProps (initialState plainProps) acceptAll) = false.
Proof.
  apply (submit_all_empty plainProps (initialState plainProps) acceptAll);
    reflexivity.
Defined.

(** C3. When the awaited registration response has status Success, the
    attempt first tracks "Account Created" with the submitted email and
    with "Changed Invite Email?" undefined for a user who was not invited
    and, for an invited user, true exactly when the submitted email is not
    the invited one; it then dispatches goToEmailConfirmation, once, with
    the very attribute record that was sent to the endpoint. *)
Theorem submit_success (props : Props) (st : SignupFormState)
    (register : Attributes -> Settled) (tok : option jsstring) :
  submitBlocked props st = false ->
  register (attributes props st) = Fulfilled (mkResponse Success tok) ->
  exists (sent : Attributes) (changed : prim),
    trace props st register =
      [PreventDefault;
       Send sent;
       Track (str "Account Created")
             [("email"%string, PStr (email st));
              ("Changed Invite Email?"%string, changed)];
       Dispatch (goToEmailConfirmation (attr_email sent) (props_teamId props) sent)] /\
    attr_email sent = email st /\
    (props_inviteCode props = None -> changed = PUndefined) /\
    (props_inviteCode props <> None ->
     exists b, changed = PBool b /\
               (b = true <-> props_email props <> Some (email st))).
Proof.
  intros B R. exists (attributes props st).
  exists (if wasInvited props then PBool (emailChanged props st) else PUndefined).
  split; [|split; [reflexivity|]].
  - run_submit B R. reflexivity.
  - unfold wasInvited. destruct (props_inviteCode props) as [code|].
    + split; [discriminate|]. intros _. exists (emailChanged props st).
      split; [reflexivity | apply emailChanged_spec].
    + split; [reflexivity | congruence].
Qed.

Lemma submit_success_witness :
  exists (sent : Attributes) (changed : prim),
    trace invitedProps invitedFilledIn acceptAll =
      [PreventDefault;
       Send sent;
       Track (str "Account Created")
             [("email"%string, PStr (email invitedFilledIn));
              ("Changed Invite Email?"%string, changed)];
       Dispatch (goToEmailConfirmation (attr_email sent)
                                       (props_teamId invitedProps) sent)] /\
    attr_email sent = email invitedFilledIn /\
    (props_inviteCode invitedProps = None -> changed = PUndefined) /\
    (props_inviteCode invitedProps <> None ->
     exists b, changed = PBool b /\
               (b = true <-> props_email invitedProps <> Some (email invitedFilledIn))).
Proof.
  apply (submit_success invitedProps invitedFilledIn acceptAll (tok := None));
    reflexivity.
Defined.

(** C4. When the registration call is rejected, or answers with a status
    outside the four recognised ones, the attempt logs one error, whose
    message is "Unexpected error during registration request: " followed
    by the string form of what was thrown (the rejection, or the status),
    with the email and the invite code as context; it schedules
    unexpectedError true and dispatches nothing.  Every attempt that
    passes the gate, the only ones that set isLoading, completes normally
    with isLoading false, whatever the endpoint answers. *)
Theorem submit_failure (props : Props) (st : SignupFormState)
    (register : Attributes -> Settled) :
  submitBlocked props st = false ->
  isLoading (nextState props st register) = false /\
  fst (submit props st register) = Normal tt /\
  (forall reason,
     register (attributes props st) = Rejected reason ->
     filter is_logError (trace props st register) =
       [LogError (str "Unexpected error during registration request: " ++ reason)
          [("email"%string, PStr (email st));
           ("inviteCode"%string, prim_of_option (props_inviteCode props))]] /\
     trace props st register =
       [PreventDefault; Send (attributes props st);
        LogError (str "Unexpected error during registration request: " ++ reason)
          [("email"%string, PStr (email st));
           ("inviteCode"%string, prim_of_option (props_inviteCode props))]] /\
     unexpectedError (nextState props st register) = true /\
     filter is_dispatch (trace props st register) = []) /\
  (forall code tok,
     register (attributes props st) = Fulfilled (mkResponse (OtherResult code) tok) ->
     filter is_logError (trace props st register) =
       [LogError (str "Unexpected error during registration request: " ++ code)
          [("email"%string, PStr (email st));
           ("inviteCode"%string, prim_of_option (props_inviteCode props))]] /\
     trace props st register =
       [PreventDefault; Send (attributes props st);
        LogError (str "Unexpected error during registration request: " ++ code)
          [("email"%string, PStr (email st));
           ("inviteCode"%string, prim_of_option (props_inviteCode props))]] /\
     unexpectedError (nextState props st register) = true /\
     filter is_dispatch (trace props st register) = []).
Proof.
  intros B. split; [|split; [|split]].
  - destruct (register (attributes props st)) as [[[] tok]|reason] eqn:R;
      run_submit B R; reflexivity.
  - destruct (register (attributes props st)) as [[[] tok]|reason] eqn:R;
      run_submit B R; reflexivity.
  - intros reason R. run_submit B R. repeat split; reflexivity.
  - intros code tok R. run_submit B R. repeat split; reflexivity.
Qed.

Lemma submit_failure_witness :
  (isLoading (nextState plainProps filledIn rejectAll) = false /\
   unexpectedError (nextState plainProps filledIn rejectAll) = true /\
   trace plainProps filledIn rejectAll =
     [PreventDefault; Send (attributes plainProps filledIn);
      LogError (str "Unexpected error during registration request: Error: timeout")
        [("email"%string, PStr (str "ann@acme.io"));
         ("inviteCode"%string, PUndefined)]]) /\
  (isLoading (nextState invitedProps invitedFilledIn unknownStatusAll) = false /\
   unexpectedError (nextState invitedProps invitedFilledIn unknownStatusAll) = true /\
   trace invitedProps invitedFilledIn unknownStatusAll =
     [PreventDefault; Send (attributes invitedProps invitedFilledIn);
      LogError (str "Unexpected error during registration request: MAINTENANCE_MODE")
        [("email"%string, PStr (str "ann@acme.io"));
         ("inviteCode"%string, PStr (str "invite-1"))]]).
Proof.
  split.
  - assert (B : submitBlocked plainProps filledIn = false) by reflexivity.
    destruct (submit_failure plainProps filledIn rejectAll B) as (L & _ & F & _).
    destruct (F (str "Error: timeout") eq_refl) as (_ & T & U & _).
    split; [exact L | split; [exact U | exact T]].
  - assert (B : submitBlocked invitedProps invitedFilledIn = false) by reflexivity.
    destruct (submit_failure invitedProps invitedFilledIn unknownStatusAll B)
      as (L & _ & _ & F).
    destruct (F (str "MAINTENANCE_MODE") None eq_refl) as (_ & T & U & _).
    split; [exact L | split; [exact U | exact T]].
Defined.

(** C5. When the registration response has status InviteConflict, the
    attempt dispatches nothing, tracks nothing and logs no error; it
    schedules inviteConflict true and ends with isLoading false. *)
Theorem submit_invite_conflict (props : Props) (st : SignupFormState)
    (register : Attributes -> Settled) (tok : option jsstring) :
  submitBlocked props st = false ->
  register (attributes props st) = Fulfilled (mkResponse InviteConflict tok) ->
  trace props st register = [PreventDefault; Send (attributes props st)] /\
  filter is_dispatch (trace props st register) = [] /\
  filter is_track (trace props st register) = [] /\
  filter is_logError (trace props st register) = [] /\
  inviteConflict (nextState props st register) = true /\
  unexpectedError (nextState props st register) = false /\
  isLoading (nextState props st register) = false.
Proof.
  intros B R. run_submit B R. repeat split; reflexivity.
Qed.

Lemma submit_invite_conflict_witness :
  trace invitedProps invitedFilledIn conflictAll =
    [PreventDefault; Send (attributes invitedProps invitedFilledIn)] /\
  filter is_dispatch (trace invitedProps invitedFilledIn conflictAll) = [] /\
  filter is_track (trace invitedProps invitedFilledIn conflictAll) = [] /\
  filter is_logError (trace invitedProps invitedFilledIn conflictAll) = [] /\
  inviteConflict (nextState invitedProps invitedFilledIn conflictAll) = true /\
  unexpectedError (nextState invitedProps invitedFilledIn conflictAll) = false /\
  isLoading (nextState invitedProps invitedFilledIn conflictAll) = false.
Proof.
  apply (submit_invite_conflict invitedProps invitedFilledIn conflictAll (tok := None));
    reflexivity.
Defined.

(** For an invited user the gate does not look at the company name or at
    its flag. *)
Lemma invited_gate_ignores_company (props : Props) (st : SignupFormState)
    (c : jsstring) (v : bool) :
  wasInvited props = true ->
  submitBlocked props (setCompanyNameValidity v (setCompanyName c st)) =
  submitBlocked props st.
Proof. intros I. unfold submitBlocked. rewrite I. reflexivity. Qed.

Lemma unblocked_sends_once (props : Props) (st : SignupFormState)
    (register : Attributes -> Settled) :
  submitBlocked props st = false ->
  filter is_send (trace props st register) = [Send (attributes props st)].
Proof.
  intros B.
  destruct (register (attributes props st)) as [[[] tok]|reason] eqn:R;
    run_submit B R; reflexivity.
Qed.

(** C6. For a user who was invited (an invite code in props), the company
    name takes no part in the gate: whatever it holds, empty included, and
    whatever its flag, the attempt is blocked or not as the other fields
    decide; an attempt that is not blocked sends one request, and that
    request has no companyName. *)
Theorem invited_company_not_required (props : Props) (st : SignupFormState)
    (register : Attributes -> Settled) :
  wasInvited props = true ->
  (forall v, submitBlocked props (setCompanyNameValidity v (setCompanyName [] st)) =
             submitBlocked props st) /\
  (submitBlocked props st = false ->
   exists sent, filter is_send (trace props st register) = [Send sent] /\
                attr_companyName sent = None).
Proof.
  intros I. split.
  - intros v. apply invited_gate_ignores_company, I.
  - intros B. exists (attributes props st). split.
    + apply unblocked_sends_once, B.
    + unfold attributes. cbn. rewrite I. reflexivity.
Qed.

Lemma invited_company_not_required_witness :
  companyName invitedFilledIn = [] /\
  companyNameValidity invitedFilledIn = false /\
  exists sent,
    filter is_send (trace invitedProps invitedFilledIn acceptAll) = [Send sent] /\
    attr_companyName sent = None.
Proof.
  split; [reflexivity | split; [reflexivity|]].
  apply (invited_company_not_required invitedProps invitedFilledIn acceptAll);
    reflexivity.
Defined.

Lemma submit_revalidates (props : Props) (st : SignupFormState)
    (register : Attributes -> Settled) :
  companyNameValidity (nextState props st register) = isNotEmpty (companyName st).
Proof.
  destruct (submitBlocked props st) eqn:B.
  - unfold nextState. rewrite (submit_blocked props st register B). reflexivity.
  - destruct (register (attributes props st)) as [[[] tok]|reason] eqn:R;
      run_submit B R; reflexivity.
Qed.

(** C9. Every attempt, blocked or not, invited or not, schedules
    companyNameValidity to be the non-emptiness of companyName.  So for an
    invited user with an empty companyName the attempt ends with the flag
    false, although the form does not render the field and the gate gives
    the same verdict as with the field filled in and its flag true. *)
Theorem submit_company_flag (props : Props) (st : SignupFormState)
    (register : Attributes -> Settled) :
  companyNameValidity (nextState props st register) = isNotEmpty (companyName st) /\
  (wasInvited props = true -> companyName st = [] ->
   companyNameValidity (nextState props st register) = false /\
   companyNameField (render props (nextState props st register)) = None /\
   submitBlocked props st =
   submitBlocked props (setCompanyNameValidity true (setCompanyName (str "Acme") st))).
Proof.
  split; [apply submit_revalidates|].
  intros I C. split; [|split].
  - rewrite submit_revalidates, C. reflexivity.
  - unfold render. cbn. rewrite I. reflexivity.
  - symmetry. apply invited_gate_ignores_company, I.
Qed.

Lemma submit_company_flag_witness :
  companyNameValidity (nextState invitedProps invitedFilledIn acceptAll) = false /\
  companyNameField (render invitedProps (nextState invitedProps invitedFilledIn acceptAll))
    = None /\
  filter is_send (trace invitedProps invitedFilledIn acceptAll)
    = [Send (attributes invitedProps invitedFilledIn)].
Proof.
  destruct (submit_company_flag invitedProps invitedFilledIn acceptAll) as [_ H].
  destruct H as (V & F & _); [reflexivity | reflexivity |].
  split; [exact V | split; [exact F | reflexivity]].
Defined.

(** What the gate does with the flags it reads: when the condition of
    lines 93-102 holds on the constants of the render, the attempt stops
    there; nothing is sent, tracked, dispatched or logged, and the next
    render differs from this one in the two banners, reset, and in the
    five validity flags at most. *)
Lemma submit_blocked_frame (props : Props) (st : SignupFormState)
    (register : Attributes -> Settled) :
  submitBlocked props st = true ->
  trace props st register = [PreventDefault] /\
  nextState props st register = revalidated st /\
  isLoading (nextState props st register) = isLoading st /\
  unexpectedError (nextState props st register) = false /\
  inviteConflict (nextState props st register) = false /\
  email (nextState props st register) = email st /\
  username (nextState props st register) = username st /\
  password (nextState props st register) = password st /\
  fullName (nextState props st register) = fullName st /\
  companyName (nextState props st register) = companyName st.
Proof.
  intros B. unfold trace, nextState. rewrite (submit_blocked props st register B).
  repeat split; reflexivity.
Qed.

(** C1. The claim does not hold of the handler.  On a fresh form whose
    username field was never touched, with the other four fields filled
    in, the username is empty, hence invalid, and yet the attempt is not
    blocked: the request goes out with the empty username and the form
    navigates on.  The gate reads usernameValidity as the render bound it,
    true, not as line 89 has just recomputed it. *)
Theorem submit_untouched_username_is_sent :
  isUsernameValid (username usernameUntouched) = false /\
  submitBlocked plainProps usernameUntouched = false /\
  trace plainProps usernameUntouched acceptAll =
    [PreventDefault;
     Send (mkAttributes (str "ann@acme.io") (str "") (str "abcdef") (str "Ann Lee")
                        None (Some (str "Acme")));
     Track (str "Account Created")
           [("email"%string, PStr (str "ann@acme.io"));
            ("Changed Invite Email?"%string, PUndefined)];
     Dispatch (goToEmailConfirmation (str "ann@acme.io") None
                 (mkAttributes (str "ann@acme.io") (str "") (str "abcdef")
                               (str "Ann Lee") None (Some (str "Acme"))))] /\
  usernameValidity (nextState plainProps usernameUntouched acceptAll) = false.
Proof. vm_compute. repeat split; reflexivity. Qed.

(** ** Every attempt, whatever its outcome *)

(** Proves a statement about one attempt by running the handler on each
    way the attempt can go. *)
Ltac every_outcome props st register :=
  let B := fresh "B" in
  let R := fresh "R" in
  destruct (submitBlocked props st) eqn:B;
  [ unfold nextState, trace; rewrite (submit_blocked props st register B); cbn
  | destruct (register (attributes props st)) as [[[] ?]|?] eqn:R;
    run_submit B R ].

(** X1. After every attempt each of the five validity flags is what its
    validator says of the field value the attempt started from. *)
Theorem submit_flags_follow_validators (props : Props) (st : SignupFormState)
    (register : Attributes -> Settled) :
  emailValidity (nextState props st register) = isEmailValid (email st) /\
  usernameValidity (nextState props st register) = isUsernameValid (username st) /\
  passwordValidity (nextState props st register) = isPasswordValid (password st) /\
  fullNameValidity (nextState props st register) = isNotEmpty (fullName st) /\
  companyNameValidity (nextState props st register) = isNotEmpty (companyName st).
Proof. every_outcome props st register; repeat split; reflexivity. Qed.

(** X2. No attempt changes what the user typed, and isLoading ends false unless
    the attempt was blocked, which leaves it as it was. *)
Theorem submit_keeps_fields (props : Props) (st : SignupFormState)
    (register : Attributes -> Settled) :
  email (nextState props st register) = email st /\
  username (nextState props st register) = username st /\
  password (nextState props st register) = password st /\
  fullName (nextState props st register) = fullName st /\
  companyName (nextState props st register) = companyName st /\
  isLoading (nextState props st register) = submitBlocked props st && isLoading st.
Proof. every_outcome props st register; repeat split; reflexivity. Qed.

(** X3. The two banners are never shown together after an attempt, whatever
    the form showed before it: the unexpected-error banner shows exactly
    when the attempt logged an error, the invite-conflict banner exactly
    when the attempt passed the gate and the endpoint answered
    InviteConflict. *)
Theorem submit_banners (props : Props) (st : SignupFormState)
    (register : Attributes -> Settled) :
  unexpectedErrorBanner (render props (nextState props st register)) &&
  inviteConflictBanner (render props (nextState props st register)) = false /\
  (unexpectedErrorBanner (render props (nextState props st register)) = true <->
   filter is_logError (trace props st register) <> []) /\
  (inviteConflictBanner (render props (nextState props st register)) = true <->
   submitBlocked props st = false /\
   exists tok, register (attributes props st) = Fulfilled (mkResponse InviteConflict tok)).
Proof.
  unfold render; cbn [unexpectedErrorBanner inviteConflictBanner].
  every_outcome props st register;
    (split; [reflexivity|]); split; split;
    try discriminate; try congruence; try (intros _; discriminate);
    try (intros [? [? ?]]; discriminate).
  intros _. split; [reflexivity | eexists; reflexivity].
Qed.

(** X4. An attempt sends at most one request and tracks exactly as often as it
    dispatches.  A blocked attempt ends with no dispatch, no logged error
    and no invite conflict; any other attempt ends with exactly one of the
    three. *)
Theorem submit_one_outcome (props : Props) (st : SignupFormState)
    (register : Attributes -> Settled) :
  length (filter is_send (trace props st register)) <= 1 /\
  length (filter is_track (trace props st register)) =
  length (filter is_dispatch (trace props st register)) /\
  length (filter is_dispatch (trace props st register)) +
  length (filter is_logError (trace props st register)) +
  (if inviteConflict (nextState props st register) then 1 else 0) =
  (if submitBlocked props st then 0 else 1).
Proof. every_outcome props st register; repeat split; cbn; lia. Qed.

(** X5. When the response has status NotOnTeam, the attempt tracks "Account
    Created" and then dispatches goToTeamCreation with the token of the
    response, present or not, and the submitted email; no banner is
    scheduled. *)
Theorem submit_not_on_team (props : Props) (st : SignupFormState)
    (register : Attributes -> Settled) (tok : option jsstring) :
  submitBlocked props st = false ->
  register (attributes props st) = Fulfilled (mkResponse NotOnTeam tok) ->
  trace props st register =
    [PreventDefault;
     Send (attributes props st);
     Track (str "Account Created")
           [("email"%string, PStr (email st));
            ("Changed Invite Email?"%string,
             if wasInvited props then PBool (emailChanged props st) else PUndefined)];
     Dispatch (goToTeamCreation tok (email st))] /\
  unexpectedError (nextState props st register) = false /\
  inviteConflict (nextState props st register) = false.
Proof. intros B R. run_submit B R. repeat split; reflexivity. Qed.

Lemma submit_not_on_team_witness :
  trace plainProps filledIn notOnTeamAll =
    [PreventDefault;
     Send (attributes plainProps filledIn);
     Track (str "Account Created")
           [("email"%string, PStr (email filledIn));
            ("Changed Invite Email?"%string,
             if wasInvited plainProps then PBool (emailChanged plainProps filledIn)
             else PUndefined)];
     Dispatch (goToTeamCreation (Some (str "token-1")) (email filledIn))] /\
  unexpectedError (nextState plainProps filledIn notOnTeamAll) = false /\
  inviteConflict (nextState plainProps filledIn notOnTeamAll) = false.
Proof.
  apply (submit_not_on_team plainProps filledIn notOnTeamAll
           (tok := Some (str "token-1"))); reflexivity.
Defined.

(** X6. When the response has status AlreadyConfirmed, the attempt tracks
    "Account Created" and then dispatches completeSignup with the
    submitted email, the token of the response and the team id of the
    props, either of which may be absent, and createdTeam false. *)
Theorem submit_already_confirmed (props : Props) (st : SignupFormState)
    (register : Attributes -> Settled) (tok : option jsstring) :
  submitBlocked props st = false ->
  register (attributes props st) = Fulfilled (mkResponse AlreadyConfirmed tok) ->
  trace props st register =
    [PreventDefault;
     Send (attributes props st);
     Track (str "Account Created")
           [("email"%string, PStr (email st));
            ("Changed Invite Email?"%string,
             if wasInvited props then PBool (emailChanged props st) else PUndefined)];
     Dispatch (completeSignup (email st) tok (props_teamId props) false)] /\
  unexpectedError (nextState props st register) = false /\
  inviteConflict (nextState props st register) = false.
Proof. intros B R. run_submit B R. repeat split; reflexivity. Qed.

Lemma submit_already_confirmed_witness :
  trace invitedProps invitedFilledIn alreadyConfirmedAll =
    [PreventDefault;
     Send (attributes invitedProps invitedFilledIn);
     Track (str "Account Created")
           [("email"%string, PStr (email invitedFilledIn));
            ("Changed Invite Email?"%string,
             if wasInvited invitedProps
             then PBool (emailChanged invitedProps invitedFilledIn)
             else PUndefined)];
     Dispatch (completeSignup (email invitedFilledIn) (Some (str "token-1"))
                              (props_teamId invitedProps) false)] /\
  unexpectedError (nextState invitedProps invitedFilledIn alreadyConfirmedAll) = false /\
  inviteConflict (nextState invitedProps invitedFilledIn alreadyConfirmedAll) = false.
Proof.
  apply (submit_already_confirmed invitedProps invitedFilledIn alreadyConfirmedAll
           (tok := Some (str "token-1"))); reflexivity.
Defined.

Lemma blocked_sends_nothing (props : Props) (st : SignupFormState)
    (register : Attributes -> Settled) (a : Attributes) :
  In (Send a) (trace props st register) ->
  submitBlocked props st = false /\ a = attributes props st.
Proof.
  intros H. destruct (submitBlocked props st) eqn:B.
  - unfold trace in H. rewrite (submit_blocked props st register B) in H.
    destruct H as [H | []]. discriminate H.
  - split; [reflexivity|].
    assert (F : In (Send a) (filter is_send (trace props st register))).
    { apply filter_In. split; [assumption | reflexivity]. }
    rewrite (unblocked_sends_once props st register B) in F.
    destruct F as [F | []]. congruence.
Qed.

(** X7. Whatever request an attempt sends has a non-empty email, password and
    full name and carries the invite code of the props; for a user who was
    not invited it has a non-empty company name, for an invited one it has
    none. *)
Theorem sent_request_is_filled (props : Props) (st : SignupFormState)
    (register : Attributes -> Settled) (a : Attributes) :
  In (Send a) (trace props st register) ->
  is_empty (attr_email a) = false /\
  is_empty (attr_password a) = false /\
  is_empty (attr_fullName a) = false /\
  attr_inviteCode a = props_inviteCode props /\
  (props_inviteCode props = None ->
   exists c, attr_companyName a = Some c /\ is_empty c = false) /\
  (props_inviteCode props <> None -> attr_companyName a = None).
Proof.
  intros H. apply blocked_sends_nothing in H as [B ->].
  unfold submitBlocked in B. rewrite !orb_false_iff in B.
  destruct B as [[[[[[[E _] _] P] _] F] _] C].
  cbn. repeat split; try assumption.
  - intros N. unfold wasInvited in *. rewrite N in *. cbn in C.
    apply orb_false_iff in C as [C _]. eauto.
  - intros N. unfold wasInvited. destruct (props_inviteCode props); congruence.
Qed.

Lemma sent_request_is_filled_witness :
  is_empty (attr_email (attributes plainProps usernameUntouched)) = false /\
  is_empty (attr_password (attributes plainProps usernameUntouched)) = false /\
  is_empty (attr_fullName (attributes plainProps usernameUntouched)) = false /\
  attr_inviteCode (attributes plainProps usernameUntouched) = props_inviteCode plainProps /\
  (props_inviteCode plainProps = None ->
   exists c, attr_companyName (attributes plainProps usernameUntouched) = Some c /\
             is_empty c = false) /\
  (props_inviteCode plainProps <> None ->
   attr_companyName (attributes plainProps usernameUntouched) = None).
Proof.
  apply (sent_request_is_filled plainProps usernameUntouched acceptAll).
  vm_compute. right. left. reflexivity.
Defined.

(** ** The gate and the flags it reads *)

Lemma empty_or_invalid_email (e : jsstring) :
  is_empty e || negb (isEmailValid e) = negb (isEmailValid e).
Proof. unfold isEmailValid. destruct e; reflexivity. Qed.

Lemma empty_or_invalid_password (p : jsstring) :
  is_empty p || negb (isPasswordValid p) = negb (isPasswordValid p).
Proof. destruct p; reflexivity. Qed.

Lemma empty_or_invalid_required (s : jsstring) :
  is_empty s || negb (isNotEmpty s) = negb (isNotEmpty s).
Proof. destruct s; reflexivity. Qed.

Lemma gate_of_truthful_flags (props : Props) (st : SignupFormState) :
  emailValidity st = isEmailValid (email st) ->
  usernameValidity st = isUsernameValid (username st) ->
  passwordValidity st = isPasswordValid (password st) ->
  fullNameValidity st = isNotEmpty (fullName st) ->
  companyNameValidity st = isNotEmpty (companyName st) ->
  submitBlocked props st = negb (allFieldsValid props st).
Proof.
  intros E U P F C. unfold submitBlocked, allFieldsValid.
  rewrite E, U, P, F, C. rewrite <- !orb_assoc.
  rewrite (orb_assoc (is_empty (fullName st))), empty_or_invalid_required.
  rewrite (orb_assoc (is_empty (password st))), empty_or_invalid_password.
  rewrite (orb_assoc (is_empty (email st))), empty_or_invalid_email.
  rewrite empty_or_invalid_required.
  destruct (isEmailValid (email st)), (isUsernameValid (username st)),
    (isPasswordValid (password st)), (isNotEmpty (fullName st)),
    (wasInvited props), (isNotEmpty (companyName st)); reflexivity.
Qed.

(** X8. When every validity flag of the render agrees with its validator on
    the field's value, an attempt is blocked exactly when some field is
    invalid, the company name counting only for a user who was not
    invited. *)
Theorem truthful_flags_gate (props : Props) (st : SignupFormState)
    (register : Attributes -> Settled) :
  emailValidity st = isEmailValid (email st) ->
  usernameValidity st = isUsernameValid (username st) ->
  passwordValidity st = isPasswordValid (password st) ->
  fullNameValidity st = isNotEmpty (fullName st) ->
  companyNameValidity st = isNotEmpty (companyName st) ->
  (allFieldsValid props st = true ->
   filter is_send (trace props st register) = [Send (attributes props st)]) /\
  (allFieldsValid props st = false -> trace props st register = [PreventDefault]).
Proof.
  intros E U P F C.
  pose proof (gate_of_truthful_flags props st E U P F C) as G. split; intros V.
  - apply unblocked_sends_once. rewrite G, V. reflexivity.
  - unfold trace. rewrite submit_blocked by (rewrite G, V; reflexivity).
    reflexivity.
Qed.

Lemma truthful_flags_gate_witness :
  filter is_send (trace plainProps filledIn acceptAll) =
  [Send (attributes plainProps filledIn)].
Proof.
  apply (truthful_flags_gate plainProps filledIn acceptAll);
    vm_compute; reflexivity.
Defined.

(** X9. Submitting again right after any attempt, with the fields as they
    were, is blocked exactly when some field is invalid: what the first
    attempt recomputed is what the second one reads. *)
Theorem resubmit_gate (props : Props) (st : SignupFormState)
    (register : Attributes -> Settled) :
  submitBlocked props (nextState props st register) =
  negb (allFieldsValid props st).
Proof.
  assert (V : allFieldsValid props (nextState props st register) =
              allFieldsValid props st).
  { every_outcome props st register; reflexivity. }
  rewrite <- V. apply gate_of_truthful_flags;
    every_outcome props st register; reflexivity.
Qed.


(** X11. A form just opened shows no banner and no inline error: not for
    the email, the password, the username or the full name, and not for
    the company name, whose field is there with no error unless the user
    was invited, when the field is absent.  Submitting the form untouched
    sends nothing, whatever the props pre-fill; afterwards the password,
    username and full-name errors show, the email error shows exactly when
    the pre-filled email is invalid, and the company error shows unless
    the user was invited. *)
Theorem fresh_form (props : Props) (register : Attributes -> Settled) :
  unexpectedErrorBanner (render props (initialState props)) = false /\
  inviteConflictBanner (render props (initialState props)) = false /\
  emailError (render props (initialState props)) = false /\
  passwordHelpIsError (render props (initialState props)) = false /\
  usernameHelpIsError (render props (initialState props)) = false /\
  fullNameError (render props (initialState props)) = false /\
  companyNameField (render props (initialState props)) =
    (if wasInvited props then None else Some false) /\
  trace props (initialState props) register = [PreventDefault] /\
  passwordHelpIsError (render props (nextState props (initialState props) register)) = true /\
  usernameHelpIsError (render props (nextState props (initialState props) register)) = true /\
  fullNameError (render props (nextState props (initialState props) register)) = true /\
  emailError (render props (nextState props (initialState props) register)) =
    negb (isEmailValid (email (initialState props))) /\
  companyNameField (render props (nextState props (initialState props) register)) =
    (if wasInvited props then None else Some true).
Proof.
  assert (B : submitBlocked props (initialState props) = true).
  { unfold submitBlocked. cbn.
    destruct (is_empty _); reflexivity. }
  unfold trace, nextState. rewrite (submit_blocked props _ register B).
  repeat split; reflexivity.
Qed.

(** ** The validity-change callback and the secondary actions *)

Lemma jsstring_eqb_true_eq (a b : jsstring) : jsstring_eqb a b = true -> a = b.
Proof. apply jsstring_eqb_eq. Qed.

(** X12. Whatever the field name, the callback completes normally, does nothing
    to the outside and leaves the text fields, isLoading and both banners
    alone.  For a name it knows, the flag of that name then reads as the
    value given, and the flag of every other name reads as before. *)
Theorem onValidityChanged_writes_one_flag
    (field : jsstring) (validity : bool) (w : World) :
  fst (onValidityChanged field validity w) = Normal tt /\
  effects (snd (onValidityChanged field validity w)) = effects w /\
  email (pending (snd (onValidityChanged field validity w))) = email (pending w) /\
  username (pending (snd (onValidityChanged field validity w))) = username (pending w) /\
  password (pending (snd (onValidityChanged field validity w))) = password (pending w) /\
  fullName (pending (snd (onValidityChanged field validity w))) = fullName (pending w) /\
  companyName (pending (snd (onValidityChanged field validity w))) =
    companyName (pending w) /\
  isLoading (pending (snd (onValidityChanged field validity w))) = isLoading (pending w) /\
  unexpectedError (pending (snd (onValidityChanged field validity w))) =
    unexpectedError (pending w) /\
  inviteConflict (pending (snd (onValidityChanged field validity w))) =
    inviteConflict (pending w) /\
  (validityOf field (pending w) <> None ->
   validityOf field (pending (snd (onValidityChanged field validity w))) =
   Some validity) /\
  (forall other, other <> field ->
   validityOf other (pending (snd (onValidityChanged field validity w))) =
   validityOf other (pending w)).
Proof.
  unfold onValidityChanged, validityOf.
  destruct (jsstring_eqb field (str "email")) eqn:E1;
    [|destruct (jsstring_eqb field (str "username")) eqn:E2;
      [|destruct (jsstring_eqb field (str "password")) eqn:E3;
        [|destruct (jsstring_eqb field (str "fullName")) eqn:E4;
          [|destruct (jsstring_eqb field (str "companyName")) eqn:E5]]]].
  all: do 10 (split; [reflexivity|]).
  all: split; [first [intros _; reflexivity | intros N; congruence]|].
  all: intros other D.
  all: try (match goal with
            | E : jsstring_eqb ?f ?name = true, D : _ <> ?f |- _ =>
                apply jsstring_eqb_true_eq in E; subst f;
                rewrite (jsstring_eqb_neq D)
            end).
  all: cbn [call pending snd setEmailValidity setUsernameValidity
            setPasswordValidity setFullNameValidity setCompanyNameValidity
            emailValidity usernameValidity passwordValidity fullNameValidity
            companyNameValidity ret].
  all: repeat match goal with
              | |- context [jsstring_eqb ?o ?name] =>
                  destruct (jsstring_eqb o name) eqn:?
              end; reflexivity.
Qed.

Lemma onValidityChanged_writes_one_flag_witness :
  validityOf (str "password")
    (pending (snd (onValidityChanged (str "password") false
                     (mkWorld (initialState plainProps) [])))) = Some false /\
  validityOf (str "email")
    (pending (snd (onValidityChanged (str "password") false
                     (mkWorld (initialState plainProps) [])))) = Some true.
Proof.
  pose proof (onValidityChanged_writes_one_flag (str "password") false
                (mkWorld (initialState plainProps) [])) as H.
  destruct H as (_ & _ & _ & _ & _ & _ & _ & _ & _ & _ & W & O).
  split.
  - apply W. vm_compute. discriminate.
  - rewrite (O (str "email")); [reflexivity | vm_compute; discriminate].
Defined.

(** X13. Going back dispatches exactly one action and changes no state: the
    join-team entry when the form was opened as JoinTeam, the new-user
    entry when it was opened as CreateTeam or without a type. *)
Theorem onClickGoBack_target (props : Props) (w : World) :
  exists target,
    onClickGoBack props w =
      (Normal tt, mkWorld (pending w) (effects w ++ [PreventDefault; Dispatch target])) /\
    (target = goToJoinTeam <-> props_type props = Some JoinTeam) /\
    (target = goToNewUserEntry <-> props_type props <> Some JoinTeam).
Proof.
  unfold onClickGoBack, bind, dispatch, emit. cbn.
  destruct (props_type props) as [[]|]; cbn; rewrite <- app_assoc; cbn;
    eexists; (split; [reflexivity|]); split; split;
    try reflexivity; try discriminate; try congruence;
    try (intros _; reflexivity); try (intros _; discriminate).
Qed.

Lemma same_type_eq (a b : option SignupType) : same_type a b = true <-> a = b.
Proof.
  destruct a as [[]|], b as [[]|]; cbn; split; intros H;
    try reflexivity; try discriminate H.
Qed.

Lemma last_cons_default {A} (x : A) (t : list A) (d : A) :
  last (x :: t) d = last t x.
Proof.
  revert x d. induction t as [|y t IH]; intros x d; [reflexivity|].
  change (last (x :: y :: t) d) with (last (y :: t) d).
  rewrite (IH y d), (IH y x). reflexivity.
Qed.

Lemma last_in_cons {A} (t : list A) (x : A) : In (last t x) (x :: t).
Proof.
  revert x. induction t as [|y t IH]; intros x; [left; reflexivity|].
  right. rewrite last_cons_default. apply IH.
Qed.

Lemma Forall_last {A} (P : A -> Prop) (l : list A) (d : A) :
  Forall P l -> P d -> P (last l d).
Proof.
  intros H. revert d. induction H as [|x l Hx Hl IH]; intros d Hd; [assumption|].
  rewrite last_cons_default. apply IH. assumption.
Qed.

(** The callback kept by [useCallback] is the one made by the first render
    of the latest run of renders with one and the same [props.type]. *)
Lemma capturedProps_run (later : list Props) :
  forall (created previous : Props) (before after : list Props),
    previous = last after created ->
    Forall (fun p => props_type p = props_type created) after ->
    (before = [] \/ props_type (last before created) <> props_type created) ->
    exists before' after',
      before ++ created :: after ++ later =
        before' ++ capturedProps created previous later :: after' /\
      Forall (fun p => props_type p =
                       props_type (capturedProps created previous later)) after' /\
      (before' = [] \/
       props_type (last before' (capturedProps created previous later)) <>
       props_type (capturedProps created previous later)).
Proof.
  induction later as [|p rest IH]; intros created previous before after Hp Ha Hb.
  - exists before, after. rewrite app_nil_r. auto.
  - cbn [capturedProps].
    assert (Tp : props_type previous = props_type created).
    { subst previous. apply (@Forall_last _ (fun q => props_type q = props_type created));
        [assumption | reflexivity]. }
    destruct (same_type (props_type previous) (props_type p)) eqn:E.
    + apply same_type_eq in E.
      destruct (@IH created p before (after ++ [p])) as (b' & a' & Eq & Fa & Fb).
      * rewrite last_last. reflexivity.
      * apply Forall_app. split; [assumption|]. constructor; [congruence | constructor].
      * assumption.
      * exists b', a'. rewrite <- Eq, <- app_assoc. auto.
    + destruct (@IH p p (before ++ created :: after) []) as (b' & a' & Eq & Fa & Fb).
      * reflexivity.
      * constructor.
      * right. rewrite EmailFacts.last_app_cons, last_cons_default, <- Hp.
        intros T. rewrite T in E.
        rewrite (proj2 (same_type_eq _ _) eq_refl) in E. discriminate E.
      * exists b', a'. rewrite <- Eq, <- app_assoc. auto.
Qed.

Lemma memoisedProps_run (first : Props) (later : list Props) :
  exists before after,
    first :: later = before ++ memoisedProps first later :: after /\
    Forall (fun p => props_type p = props_type (memoisedProps first later)) after /\
    (before = [] \/
     props_type (last before (memoisedProps first later)) <>
     props_type (memoisedProps first later)).
Proof.
  unfold memoisedProps.
  destruct (@capturedProps_run later first first [] [])
    as (b & a & Eq & Fa & Fb); auto.
  exists b, a. auto.
Qed.

Lemma memoisedProps_type (first : Props) (later : list Props) :
  props_type (memoisedProps first later) = props_type (last later first).
Proof.
  destruct (memoisedProps_run first later) as (b & a & Eq & Fa & _).
  assert (L : last (first :: later) first = last (memoisedProps first later :: a) first).
  { rewrite Eq. apply EmailFacts.last_app_cons. }
  rewrite !last_cons_default in L.
  transitivity (props_type (last a (memoisedProps first later))).
  - symmetry.
    apply (@Forall_last _ (fun q => props_type q = props_type (memoisedProps first later)));
      [assumption | reflexivity].
  - rewrite <- L. reflexivity.
Qed.

(** Going back from the memoised callback is going back with the props of
    the current render: the callback reads nothing but its dependency. *)
Lemma onClickGoBack_memoised (first : Props) (later : list Props) :
  onClickGoBack (memoisedProps first later) = onClickGoBack (last later first).
Proof. unfold onClickGoBack. rewrite memoisedProps_type. reflexivity. Qed.

(** X14. Signing up with GitHub tracks the provider, then dispatches one
    startSSOSignin and changes no state.  The handler is memoised on
    props.type alone, so the invite code it reads is that of the first
    render of the latest run of renders with the same props.type, which
    need not be the current one; if the invite code never changed, it is
    the current one.  The action carries invite context exactly when that
    invite code is present and not the empty string, and the context is
    always of type JoinTeam. *)
Theorem onClickGithubSignup_info (first : Props) (later : list Props) (w : World) :
  exists created info,
    created = memoisedProps first later /\
    onClickGithubSignup created w =
      (Normal tt,
       mkWorld (pending w)
               (effects w ++
                [PreventDefault;
                 Track (str "Provider Auth Selected")
                       [("Provider"%string, PStr (str "GitHub"))];
                 Dispatch (startSSOSignin (str "github") info)])) /\
    (forall code, info = Some (JoinTeam, code) <->
                  props_inviteCode created = Some code /\ code <> []) /\
    (info = None <->
     props_inviteCode created = None \/ props_inviteCode created = Some []) /\
    (exists before after,
       first :: later = before ++ created :: after /\
       Forall (fun p => props_type p = props_type created) after /\
       (before = [] \/ props_type (last before created) <> props_type created)) /\
    ((forall p, In p later -> props_inviteCode p = props_inviteCode first) ->
     props_inviteCode created = props_inviteCode (last later first)).
Proof.
  exists (memoisedProps first later).
  assert (S : exists info,
    onClickGithubSignup (memoisedProps first later) w =
      (Normal tt,
       mkWorld (pending w)
               (effects w ++
                [PreventDefault;
                 Track (str "Provider Auth Selected")
                       [("Provider"%string, PStr (str "GitHub"))];
                 Dispatch (startSSOSignin (str "github") info)])) /\
    (forall code, info = Some (JoinTeam, code) <->
                  props_inviteCode (memoisedProps first later) = Some code /\
                  code <> []) /\
    (info = None <->
     props_inviteCode (memoisedProps first later) = None \/
     props_inviteCode (memoisedProps first later) = Some [])).
  { unfold onClickGithubSignup, bind, dispatch, emit. cbn.
    rewrite <- !app_assoc. cbn.
    destruct (props_inviteCode (memoisedProps first later)) as [[|c code]|]; eexists;
      (split; [reflexivity|]); split.
    - intros code. split; [discriminate|]. intros [[= <-] N]. contradiction.
    - split; auto.
    - intros code'. split.
      + intros [= <-]. split; [reflexivity | discriminate].
      + intros [[= <-] _]. reflexivity.
    - split; [discriminate|]. intros [H | H]; discriminate.
    - intros code. split; [discriminate|]. intros [H _]. discriminate.
    - split; auto. }
  destruct S as (info & R & I & N). exists info.
  split; [reflexivity|]. split; [exact R|]. split; [exact I|]. split; [exact N|].
  split; [apply memoisedProps_run|].
  intros Same.
  assert (All : forall p, In p (first :: later) ->
                          props_inviteCode p = props_inviteCode first).
  { intros p [<- | H]; [reflexivity | apply Same, H]. }
  destruct (memoisedProps_run first later) as (b & a & Eq & _ & _).
  rewrite (All (memoisedProps first later))
    by (rewrite Eq; apply in_or_app; right; left; reflexivity).
  symmetry. destruct later as [|p later]; [reflexivity|].
  apply Same. rewrite last_cons_default. apply last_in_cons.
Qed.

Lemma onClickGithubSignup_info_witness :
  (wasInvited emptyInviteProps = true /\
   onClickGithubSignup (memoisedProps emptyInviteProps [])
                       (mkWorld (initialState emptyInviteProps) []) =
     (Normal tt,
      mkWorld (initialState emptyInviteProps)
              [PreventDefault;
               Track (str "Provider Auth Selected")
                     [("Provider"%string, PStr (str "GitHub"))];
               Dispatch (startSSOSignin (str "github") None)])) /\
  (wasInvited invitedProps = true /\
   props_type joinTeamProps = props_type invitedProps /\
   onClickGithubSignup (memoisedProps joinTeamProps [invitedProps])
                       (mkWorld (initialState joinTeamProps) []) =
     (Normal tt,
      mkWorld (initialState joinTeamProps)
              [PreventDefault;
               Track (str "Provider Auth Selected")
                     [("Provider"%string, PStr (str "GitHub"))];
               Dispatch (startSSOSignin (str "github") None)])).
Proof.
  split.
  - destruct (onClickGithubSignup_info emptyInviteProps []
                (mkWorld (initialState emptyInviteProps) []))
      as (created & info & -> & E & _ & N & _ & _).
    split; [reflexivity|]. rewrite E.
    rewrite (proj2 N) by (right; reflexivity). reflexivity.
  - destruct (onClickGithubSignup_info joinTeamProps [invitedProps]
                (mkWorld (initialState joinTeamProps) []))
      as (created & info & -> & E & _ & N & _ & _).
    split; [reflexivity|]. split; [reflexivity|]. rewrite E.
    rewrite (proj2 N) by (left; reflexivity). reflexivity.
Defined.

(** ** More on the email pattern *)

Import Documented.

Lemma line_terminator_cases (c : code_unit) :
  is_line_terminator c = true -> c = 10%N \/ c = 13%N \/ c = 8232%N \/ c = 8233%N.
Proof.
  unfold is_line_terminator. rewrite !orb_true_iff, !N.eqb_eq. tauto.
Qed.

Lemma local_part_not_line_terminator (c : code_unit) :
  in_class local_part c = true -> negb (is_line_terminator c) = true.
Proof.
  intros H. destruct (is_line_terminator c) eqn:E; [|reflexivity].
  apply line_terminator_cases in E as [-> | [-> | [-> | ->]]];
    vm_compute in H; discriminate H.
Qed.

Lemma alnum_hyphen_not_line_terminator (c : code_unit) :
  in_class alnum_hyphen c = true -> negb (is_line_terminator c) = true.
Proof.
  intros H. destruct (is_line_terminator c) eqn:E; [|reflexivity].
  apply line_terminator_cases in E as [-> | [-> | [-> | ->]]];
    vm_compute in H; discriminate H.
Qed.

Lemma alnum_not_line_terminator (c : code_unit) :
  in_class alnum c = true -> negb (is_line_terminator c) = true.
Proof.
  intros H. destruct (is_line_terminator c) eqn:E; [|reflexivity].
  apply line_terminator_cases in E as [-> | [-> | [-> | ->]]];
    vm_compute in H; discriminate H.
Qed.

Lemma label_no_line_terminator (l : jsstring) :
  matches label l -> forallb (fun c => negb (is_line_terminator c)) l = true.
Proof.
  unfold label. intros H.
  apply RangeFacts.matches_cat_inv in H as (s1 & t & -> & H1 & H2).
  apply RangeFacts.matches_class_inv in H1 as (a & -> & Ha).
  cbn. rewrite (alnum_not_line_terminator a Ha). cbn.
  apply RangeFacts.matches_alt_inv in H2 as [H2 | H2].
  - apply RangeFacts.matches_eps_inv in H2. subst. reflexivity.
  - apply RangeFacts.matches_cat_inv in H2 as (m & e & -> & Hm & He).
    apply RangeFacts.matches_class_inv in He as (b & -> & Hb).
    apply RangeFacts.matches_range in Hm as [_ Hm]; [|lia].
    rewrite forallb_app. cbn. rewrite (alnum_not_line_terminator b Hb).
    rewrite andb_true_r. revert Hm.
    apply EmailFacts.forallb_impl, alnum_hyphen_not_line_terminator.
Qed.

Lemma labels_no_line_terminator (t : jsstring) :
  matches (Star (Cat Dot label)) t ->
  forallb (fun c => negb (is_line_terminator c)) t = true.
Proof.
  intros H. remember (Star (Cat Dot label)) as r eqn:Er.
  induction H; try discriminate; [reflexivity|].
  injection Er as ->. rewrite forallb_app, (IHmatches2 eq_refl), andb_true_r.
  apply RangeFacts.matches_cat_inv in H as (d & l & -> & Hd & Hl).
  inversion Hd; subst. cbn.
  match goal with E : is_line_terminator _ = false |- _ => rewrite E end.
  cbn. apply label_no_line_terminator, Hl.
Qed.

(** X15. No string the email validator accepts contains a line terminator
    (LF, CR, U+2028, U+2029). *)
Theorem isEmailValid_single_line (s : jsstring) :
  isEmailValid s = true ->
  forallb (fun c => negb (is_line_terminator c)) s = true.
Proof.
  unfold isEmailValid. intros H. apply andb_true_iff in H as [_ H].
  apply RegExpFacts.test_matches in H. unfold emailRegex in H.
  apply RangeFacts.matches_cat_inv in H as (local & rest & -> & Hloc & H).
  apply RangeFacts.matches_cat_inv in H as (at_ & domain & -> & Hat & H).
  apply RangeFacts.matches_class_inv in Hat as (c & -> & Hc).
  apply RangeFacts.matches_cat_inv in H as (l & t & -> & Hl & Ht).
  apply EmailFacts.matches_plus_class_inv in Hloc as [_ Hall].
  rewrite !forallb_app.
  rewrite (EmailFacts.forallb_impl _ _ _ local_part_not_line_terminator Hall).
  rewrite (label_no_line_terminator Hl), (labels_no_line_terminator Ht).
  cbn in Hc. rewrite orb_false_r in Hc. apply N.eqb_eq in Hc. subst c.
  reflexivity.
Qed.

Lemma isEmailValid_single_line_witness :
  forallb (fun c => negb (is_line_terminator c)) (str "a@b.co") = true.
Proof. apply (isEmailValid_single_line (str "a@b.co")). reflexivity. Defined.

Lemma separated_labels_match (pieces : list (code_unit * jsstring)) :
  forallb (fun p => negb (is_line_terminator (fst p)) && label_shape (snd p)) pieces
    = true ->
  matches (Star (Cat Dot label)) (separated pieces).
Proof.
  induction pieces as [|[c l] pieces IH]; cbn; intros H; [constructor|].
  apply andb_true_iff in H as [Hp H]. apply andb_true_iff in Hp as [Hc Hl].
  apply negb_true_iff in Hc. unfold separated. cbn.
  apply (MStarApp (s1 := c :: l)); [|apply IH; assumption].
  apply (MCat (s1 := [c])).
  - constructor. assumption.
  - apply EmailFacts.label_shape_matches. assumption.
Qed.

Lemma separated_accepted (local l0 : jsstring) (pieces : list (code_unit * jsstring)) :
  is_empty local = false ->
  forallb (in_class local_part) local = true ->
  label_shape l0 = true ->
  forallb (fun p => negb (is_line_terminator (fst p)) && label_shape (snd p)) pieces
    = true ->
  isEmailValid (local ++ ch "@" :: l0 ++ separated pieces) = true.
Proof.
  intros Hne Hloc Hl Hps. unfold isEmailValid. apply andb_true_iff. split.
  - destruct local; [discriminate Hne | reflexivity].
  - apply RegExpFacts.test_matches. unfold emailRegex.
    constructor; [apply EmailFacts.matches_plus_class; assumption|].
    apply (MCat (s1 := [ch "@"])); [constructor; reflexivity|].
    constructor; [apply EmailFacts.label_shape_matches
                 | apply separated_labels_match]; assumption.
Qed.

(** X16. The character in front of each further label need not be a dot: a
    local part, '@', a label, and then any number of labels each behind
    any one character that is not a line terminator, is accepted. *)
Theorem isEmailValid_any_separator
    (local l0 : jsstring) (pieces : list (code_unit * jsstring)) :
  is_empty local = false ->
  forallb (in_class local_part) local = true ->
  label_shape l0 = true ->
  forallb (fun p => negb (is_line_terminator (fst p)) && label_shape (snd p)) pieces
    = true ->
  isEmailValid (local ++ ch "@" :: l0 ++ separated pieces) = true.
Proof. apply separated_accepted. Qed.

Lemma isEmailValid_any_separator_witness :
  isEmailValid (str "ann@acme@example com") = true.
Proof.
  apply (isEmailValid_any_separator (str "ann") (str "acme")
           [(ch "@", str "example"); (ch " ", str "com")]); reflexivity.
Defined.

Lemma alnum_as_separator (c : code_unit) :
  is_alnum c = true -> negb (is_line_terminator c) = true.
Proof.
  intros H. apply alnum_not_line_terminator. rewrite EmailFacts.alnum_documented.
  assumption.
Qed.

Lemma alnum_pairs (n : nat) : forall t : jsstring,
  length t = 2 * n -> forallb is_alnum t = true ->
  exists pieces,
    t = separated pieces /\
    forallb (fun p => negb (is_line_terminator (fst p)) && label_shape (snd p)) pieces
      = true.
Proof.
  induction n as [|n IH]; intros t L F.
  - destruct t; [|discriminate L]. exists []. split; reflexivity.
  - destruct t as [|x [|y t]]; try (cbn in L; lia).
    cbn in F. apply andb_true_iff in F as [Hx F]. apply andb_true_iff in F as [Hy F].
    destruct (IH t) as (pieces & -> & Hp); [cbn in L; lia | assumption |].
    exists ((x, [y]) :: pieces). split; [reflexivity|].
    cbn [forallb fst snd]. rewrite (alnum_as_separator x Hx), (alnum_single_label y Hy), Hp.
    reflexivity.
Qed.

(** X17. The bound of 63 characters on a label is not kept: a local part, '@'
    and any non-empty run of letters and digits, however long, is
    accepted. *)
Theorem isEmailValid_long_label (local domain : jsstring) :
  is_empty local = false ->
  forallb (in_class local_part) local = true ->
  is_empty domain = false ->
  forallb is_alnum domain = true ->
  isEmailValid (local ++ ch "@" :: domain) = true.
Proof.
  intros Hne Hloc Hd Ha. destruct domain as [|a rest]; [discriminate Hd|].
  cbn in Ha. apply andb_true_iff in Ha as [Hfst Ha].
  destruct (Nat.even (length rest)) eqn:Ev.
  - apply Nat.even_spec in Ev as [n Ln].
    destruct (alnum_pairs n rest Ln Ha) as (pieces & -> & Hp).
    apply (separated_accepted local [a] pieces); auto using alnum_single_label.
  - destruct rest as [|b rest]; [discriminate Ev|].
    cbn in Ha. apply andb_true_iff in Ha as [Hb Ha].
    cbn [length] in Ev. rewrite Nat.even_succ, <- Nat.negb_even in Ev.
    apply negb_false_iff, Nat.even_spec in Ev as [n Ln].
    destruct (alnum_pairs n rest Ln Ha) as (pieces & -> & Hp).
    apply (separated_accepted local [a; b] pieces); auto using alnum_double_label.
Qed.

Lemma isEmailValid_long_label_witness :
  64 <= length (repeat (ch "x") 100) /\
  isEmailValid (str "ann" ++ ch "@" :: repeat (ch "x") 100) = true.
Proof.
  split; [vm_compute; lia|].
  apply (isEmailValid_long_label (str "ann") (repeat (ch "x") 100)); reflexivity.
Defined.
